(** * FlashSync: the live-preview engine of [src/extension.ts]

    A shallow embedding of the extension's server side: the string helper
    [injectScript], the port probe [getFreePort], and the module-level state
    machine driven by editor events, commands and debounce timers. *)

From Stdlib Require Import NArith Ascii String Decimal.
From stdpp Require Import gmap list strings.

Local Open Scope N_scope.
Local Open Scope nat_scope.

(** ** JavaScript strings

    A JavaScript string is a sequence of UTF-16 code units.  Every literal of
    the source is ASCII and is written with [lit]. *)

Abbreviation jsstring := (list N).

Fixpoint lit (s : string) : jsstring :=
  match s with
  | EmptyString => []
  | String a s' => N_of_ascii a :: lit s'
  end.

Definition LF : N := 10%N.
Definition QUOTE : N := 34%N.
Definition DOLLAR : N := 36%N.
Definition AMPERSAND : N := 38%N.
Definition APOSTROPHE : N := 39%N.
Definition BACKTICK : N := 96%N.

(** [s.startsWith(pat)] *)
Fixpoint startsWith (pat s : jsstring) : bool :=
  match pat, s with
  | [], _ => true
  | _ :: _, [] => false
  | p :: pat', c :: s' => (p =? c)%N && startsWith pat' s'
  end.

(** [s.indexOf(pat)], with [None] for [-1] *)
Fixpoint indexOf (pat s : jsstring) : option nat :=
  if startsWith pat s then Some 0
  else match s with
       | [] => None
       | _ :: s' => S <$> indexOf pat s'
       end.

(** [s.includes(pat)] *)
Definition includes (pat s : jsstring) : bool :=
  match indexOf pat s with
  | Some _ => true
  | None => false
  end.

(** The abstract operation GetSubstitution of ECMAScript, as
    [String.prototype.replace] runs it for a string pattern: there are no
    captures, so only [$$], [$&], [$`] and [$'] are special in the
    replacement text and every other [$] stands for itself. *)
Fixpoint getSubstitution (matched before after templ : jsstring) : jsstring :=
  match templ with
  | [] => []
  | c :: rest =>
      if (c =? DOLLAR)%N then
        match rest with
        | [] => [c]
        | d :: rest' =>
            if (d =? DOLLAR)%N then
              DOLLAR :: getSubstitution matched before after rest'
            else if (d =? AMPERSAND)%N then
              matched ++ getSubstitution matched before after rest'
            else if (d =? BACKTICK)%N then
              before ++ getSubstitution matched before after rest'
            else if (d =? APOSTROPHE)%N then
              after ++ getSubstitution matched before after rest'
            else c :: getSubstitution matched before after rest
        end
      else c :: getSubstitution matched before after rest
  end.

(** [s.replace(pat, repl)] for a string [pat]: the first occurrence only. *)
Definition replace (s pat repl : jsstring) : jsstring :=
  match indexOf pat s with
  | None => s
  | Some i =>
      let before := take i s in
      let after := drop (i + length pat) s in
      before ++ getSubstitution pat before after repl ++ after
  end.

(** Decimal digits of a number, most significant first. *)
Fixpoint digits (u : Decimal.uint) : jsstring :=
  match u with
  | Nil => []
  | D0 u' => 48%N :: digits u'
  | D1 u' => 49%N :: digits u'
  | D2 u' => 50%N :: digits u'
  | D3 u' => 51%N :: digits u'
  | D4 u' => 52%N :: digits u'
  | D5 u' => 53%N :: digits u'
  | D6 u' => 54%N :: digits u'
  | D7 u' => 55%N :: digits u'
  | D8 u' => 56%N :: digits u'
  | D9 u' => 57%N :: digits u'
  end.

(** The template substitution [${port}] for a port number. *)
Definition Number_toString (n : N) : jsstring := digits (N.to_uint n).

(** ** Inject helper *)

Definition BOOTSTRAP : jsstring := lit "flashsync.js".
Definition CLOSE_HEAD : jsstring := lit "</head>".
Definition CLOSE_BODY : jsstring := lit "</body>".

(** The template literal of [injectScript]: the script element between two
    line feeds. *)
Definition scriptElement (port : N) : jsstring :=
  (lit "<script src=" ++ [QUOTE] ++ lit "http://127.0.0.1:"
     ++ Number_toString port) ++ lit "/flashsync.js" ++ [QUOTE]
     ++ lit " defer></script>".

Definition scriptTag (port : N) : jsstring :=
  [LF] ++ scriptElement port ++ [LF].

Definition injectScript (html : jsstring) (port : N) : jsstring :=
  if includes BOOTSTRAP html then html
  else
    let tag := scriptTag port in
    if includes CLOSE_HEAD html then replace html CLOSE_HEAD (tag ++ CLOSE_HEAD)
    else if includes CLOSE_BODY html then replace html CLOSE_BODY (tag ++ CLOSE_BODY)
    else html ++ tag.

(** How often [pat] occurs in [s], counting every start position. *)
Fixpoint occurrences (pat s : jsstring) : nat :=
  match s with
  | [] => 0
  | _ :: s' => (if startsWith pat s then 1 else 0) + occurrences pat s'
  end.

(** [pat] occurs somewhere in [s]. *)
Definition contains (pat s : jsstring) : Prop :=
  ∃ pre suf, s = pre ++ pat ++ suf.

(** [i] is the position of the first occurrence of [pat] in [s]. *)
Definition first_at (pat s : jsstring) (i : nat) : Prop :=
  pat `prefix_of` drop i s ∧ ∀ j, j < i → ¬ pat `prefix_of` drop j s.


(** ** Port probe

    [bindable p] says whether a listener can be bound to port [p] on the
    loopback address at the moment of the attempt; a listener bound to
    [start] reports [start] as its port (the source starts at 9090 and only
    counts up, so the wildcard port 0 does not occur).  Each attempt of the
    source is one asynchronous round; [fuel] bounds the number of attempts the
    model follows, the source itself has no bound. *)

Fixpoint getFreePort (bindable : N → bool) (fuel : nat) (start : N) : option N :=
  match fuel with
  | O => None
  | S fuel' =>
      if bindable start then Some start
      else getFreePort bindable fuel' (start + 1)%N
  end.

(** ** Module state *)

Inductive ServerState := stopped | running_editing | running_paused.

Global Instance ServerState_eq_dec : EqDecision ServerState.
Proof. solve_decision. Defined.

Definition DEBOUNCE_MS : N := 140%N.

(** A [vscode.TextDocument]; its URI is the key under which the editor holds it. *)
Record TextDocument := { fileName : jsstring; getText : jsstring }.

(** The object handed to [JSON.stringify] in [broadcastIfAllowed]. *)
Record ChangeMessage := { file : jsstring; content : jsstring }.

(** A socket of [wss.clients]. *)
Record Client := { clientId : nat; readyState : nat }.

Inductive Effect :=
| ProbePort (start : N)
| CreateListener (port : N)
| CreateHub
| CloseHub
| CloseListener
| StartReturned (port : option N)
| Broadcast (payload : ChangeMessage) (recipients : list nat).

(** The module-level variables of the extension together with the part of the
    host they act on: the editor's documents, the timers of the event loop and
    its clock, the [startServer] calls suspended at their [await], and the
    [listen] callbacks not yet run.  The status bar button and the
    notifications are left out: nothing reads them back. *)
Record World := {
  wss : option (list Client);
  httpServer : option N;
  activePort : option N;
  currentRoot : option jsstring;
  listenersRegistered : bool;
  debounceTimers : gmap jsstring nat;
  serverState : ServerState;
  timeouts : gmap nat (N * jsstring);
  nextTimeout : nat;
  clock : N;
  documents : gmap jsstring TextDocument;
  starting : list jsstring;
  listening : nat
}.

Definition initial : World :=
  {| wss := None; httpServer := None; activePort := None; currentRoot := None;
     listenersRegistered := false; debounceTimers := ∅; serverState := stopped;
     timeouts := ∅; nextTimeout := 0; clock := 0%N; documents := ∅;
     starting := []; listening := 0 |}.

Definition set_wss (v : option (list Client)) (w : World) : World :=
  {| wss := v; httpServer := httpServer w; activePort := activePort w;
     currentRoot := currentRoot w; listenersRegistered := listenersRegistered w;
     debounceTimers := debounceTimers w; serverState := serverState w;
     timeouts := timeouts w; nextTimeout := nextTimeout w; clock := clock w;
     documents := documents w; starting := starting w; listening := listening w |}.

Definition set_httpServer (v : option N) (w : World) : World :=
  {| wss := wss w; httpServer := v; activePort := activePort w;
     currentRoot := currentRoot w; listenersRegistered := listenersRegistered w;
     debounceTimers := debounceTimers w; serverState := serverState w;
     timeouts := timeouts w; nextTimeout := nextTimeout w; clock := clock w;
     documents := documents w; starting := starting w; listening := listening w |}.

Definition set_activePort (v : option N) (w : World) : World :=
  {| wss := wss w; httpServer := httpServer w; activePort := v;
     currentRoot := currentRoot w; listenersRegistered := listenersRegistered w;
     debounceTimers := debounceTimers w; serverState := serverState w;
     timeouts := timeouts w; nextTimeout := nextTimeout w; clock := clock w;
     documents := documents w; starting := starting w; listening := listening w |}.

Definition set_currentRoot (v : option jsstring) (w : World) : World :=
  {| wss := wss w; httpServer := httpServer w; activePort := activePort w;
     currentRoot := v; listenersRegistered := listenersRegistered w;
     debounceTimers := debounceTimers w; serverState := serverState w;
     timeouts := timeouts w; nextTimeout := nextTimeout w; clock := clock w;
     documents := documents w; starting := starting w; listening := listening w |}.

Definition set_listenersRegistered (v : bool) (w : World) : World :=
  {| wss := wss w; httpServer := httpServer w; activePort := activePort w;
     currentRoot := currentRoot w; listenersRegistered := v;
     debounceTimers := debounceTimers w; serverState := serverState w;
     timeouts := timeouts w; nextTimeout := nextTimeout w; clock := clock w;
     documents := documents w; starting := starting w; listening := listening w |}.

Definition set_debounceTimers (v : gmap jsstring nat) (w : World) : World :=
  {| wss := wss w; httpServer := httpServer w; activePort := activePort w;
     currentRoot := currentRoot w; listenersRegistered := listenersRegistered w;
     debounceTimers := v; serverState := serverState w;
     timeouts := timeouts w; nextTimeout := nextTimeout w; clock := clock w;
     documents := documents w; starting := starting w; listening := listening w |}.

Definition set_serverState (v : ServerState) (w : World) : World :=
  {| wss := wss w; httpServer := httpServer w; activePort := activePort w;
     currentRoot := currentRoot w; listenersRegistered := listenersRegistered w;
     debounceTimers := debounceTimers w; serverState := v;
     timeouts := timeouts w; nextTimeout := nextTimeout w; clock := clock w;
     documents := documents w; starting := starting w; listening := listening w |}.

Definition set_timeouts (v : gmap nat (N * jsstring)) (w : World) : World :=
  {| wss := wss w; httpServer := httpServer w; activePort := activePort w;
     currentRoot := currentRoot w; listenersRegistered := listenersRegistered w;
     debounceTimers := debounceTimers w; serverState := serverState w;
     timeouts := v; nextTimeout := nextTimeout w; clock := clock w;
     documents := documents w; starting := starting w; listening := listening w |}.

Definition set_nextTimeout (v : nat) (w : World) : World :=
  {| wss := wss w; httpServer := httpServer w; activePort := activePort w;
     currentRoot := currentRoot w; listenersRegistered := listenersRegistered w;
     debounceTimers := debounceTimers w; serverState := serverState w;
     timeouts := timeouts w; nextTimeout := v; clock := clock w;
     documents := documents w; starting := starting w; listening := listening w |}.

Definition set_clock (v : N) (w : World) : World :=
  {| wss := wss w; httpServer := httpServer w; activePort := activePort w;
     currentRoot := currentRoot w; listenersRegistered := listenersRegistered w;
     debounceTimers := debounceTimers w; serverState := serverState w;
     timeouts := timeouts w; nextTimeout := nextTimeout w; clock := v;
     documents := documents w; starting := starting w; listening := listening w |}.

Definition set_documents (v : gmap jsstring TextDocument) (w : World) : World :=
  {| wss := wss w; httpServer := httpServer w; activePort := activePort w;
     currentRoot := currentRoot w; listenersRegistered := listenersRegistered w;
     debounceTimers := debounceTimers w; serverState := serverState w;
     timeouts := timeouts w; nextTimeout := nextTimeout w; clock := clock w;
     documents := v; starting := starting w; listening := listening w |}.

Definition set_starting (v : list jsstring) (w : World) : World :=
  {| wss := wss w; httpServer := httpServer w; activePort := activePort w;
     currentRoot := currentRoot w; listenersRegistered := listenersRegistered w;
     debounceTimers := debounceTimers w; serverState := serverState w;
     timeouts := timeouts w; nextTimeout := nextTimeout w; clock := clock w;
     documents := documents w; starting := v; listening := listening w |}.

Definition set_listening (v : nat) (w : World) : World :=
  {| wss := wss w; httpServer := httpServer w; activePort := activePort w;
     currentRoot := currentRoot w; listenersRegistered := listenersRegistered w;
     debounceTimers := debounceTimers w; serverState := serverState w;
     timeouts := timeouts w; nextTimeout := nextTimeout w; clock := clock w;
     documents := documents w; starting := starting w; listening := v |}.

(** ** Host primitives *)

(** [setTimeout(cb, ms)]: the callback of a debounce timer is determined by
    the document it captured, which the editor holds under [key]. *)
Definition setTimeout (key : jsstring) (ms : N) (w : World) : nat * World :=
  let id := nextTimeout w in
  (id, set_nextTimeout (S id)
         (set_timeouts (<[id := ((clock w + ms)%N, key)]> (timeouts w)) w)).

Definition clearTimeout (id : nat) (w : World) : World :=
  set_timeouts (delete id (timeouts w)) w.

(** Events that reach the extension, or change the host it observes. *)
Inductive Event :=
| CmdToggle (folder : option jsstring)
| CmdStop
| CmdOpenFile (folder : option jsstring)
| PortFound (port : N)
| Listening
| Deactivate
| DidOpen (key : jsstring) (doc : TextDocument)
| DidChange (key : jsstring) (text : jsstring)
| DidSave (key : jsstring)
| TimerFire (id : nat)
| Tick (dt : N)
| ClientConnect (id : nat)
| ClientState (id : nat) (rs : nat)
| ClientGone (id : nat).

(** [a || b] on values that are a string or undefined: the empty string is
    falsy. *)
Definition or_else (a b : option jsstring) : option jsstring :=
  match a with
  | Some (_ :: _) => a
  | _ => b
  end.

(** ** Platform functions used in the examples

    [path.extname] and [toLowerCase] are not part of the extension.  The
    examples run the engine with the POSIX [extname] of Node.js, which scans
    the path from its end, and with lower-casing of the ASCII letters. *)

Record ExtScan := {
  startDot : option nat;
  startPart : nat;
  endPos : option nat;
  matchedSlash : bool;
  preDotState : Z
}.

(** The loop of [extname]; [n] is the index of the code unit inspected last,
    plus one. *)
Fixpoint extname_scan (path : jsstring) (n : nat) (st : ExtScan) : ExtScan :=
  match n with
  | O => st
  | S i =>
      match path !! i with
      | None => st
      | Some code =>
          if (code =? 47)%N then
            if negb (matchedSlash st) then
              {| startDot := startDot st; startPart := i + 1; endPos := endPos st;
                 matchedSlash := matchedSlash st; preDotState := preDotState st |}
            else extname_scan path i st
          else
            let st1 :=
              match endPos st with
              | None =>
                  {| startDot := startDot st; startPart := startPart st;
                     endPos := Some (i + 1); matchedSlash := false;
                     preDotState := preDotState st |}
              | Some _ => st
              end in
            let st2 :=
              if (code =? 46)%N then
                match startDot st1 with
                | None =>
                    {| startDot := Some i; startPart := startPart st1;
                       endPos := endPos st1; matchedSlash := matchedSlash st1;
                       preDotState := preDotState st1 |}
                | Some _ =>
                    {| startDot := startDot st1; startPart := startPart st1;
                       endPos := endPos st1; matchedSlash := matchedSlash st1;
                       preDotState := 1%Z |}
                end
              else
                match startDot st1 with
                | Some _ =>
                    {| startDot := startDot st1; startPart := startPart st1;
                       endPos := endPos st1; matchedSlash := matchedSlash st1;
                       preDotState := (-1)%Z |}
                | None => st1
                end in
            extname_scan path i st2
      end
  end.

Definition posix_extname (path : jsstring) : jsstring :=
  let st := extname_scan path (length path)
              {| startDot := None; startPart := 0; endPos := None;
                 matchedSlash := true; preDotState := 0%Z |} in
  match startDot st, endPos st with
  | Some sd, Some e =>
      if (preDotState st =? 0)%Z
         || ((preDotState st =? 1)%Z && (sd =? e - 1) && (sd =? startPart st + 1))
      then []
      else take (e - sd) (drop sd path)
  | _, _ => []
  end.

(** [toLowerCase] on the ASCII letters; other code units are kept. *)
Definition ascii_toLowerCase (s : jsstring) : jsstring :=
  (λ c, if (65 <=? c)%N && (c <=? 90)%N then (c + 32)%N else c) <$> s.

(** ** Worlds used in the examples *)

Definition index_uri : jsstring := lit "file:///site/index.html".
Definition notes_uri : jsstring := lit "file:///site/notes.txt".

Definition index_doc : TextDocument :=
  {| fileName := lit "/site/index.html"; getText := lit "<p>one</p>" |}.
Definition notes_doc : TextDocument :=
  {| fileName := lit "/site/notes.txt"; getText := lit "todo" |}.

(** The events that take the extension from activation to a live session on
    port 9090 with one browser connected and two documents open. *)
Definition go_live : list Event :=
  [DidOpen index_uri index_doc; DidOpen notes_uri notes_doc;
   CmdToggle (Some (lit "/site")); PortFound 9090%N; Listening; ClientConnect 1].

Definition live_world : World :=
  {| wss := Some [{| clientId := 1; readyState := 1 |}];
     httpServer := Some 9090%N; activePort := Some 9090%N;
     currentRoot := Some (lit "/site"); listenersRegistered := true;
     debounceTimers := ∅; serverState := running_editing;
     timeouts := ∅; nextTimeout := 0; clock := 0%N;
     documents := <[notes_uri := notes_doc]> (<[index_uri := index_doc]> ∅);
     starting := []; listening := 0 |}.

Definition paused_world : World := set_serverState running_paused live_world.

(** [path.join] of a root without a trailing slash and a request path that
    starts with a slash and has no dot segments. *)
Definition plain_join (root reqPath : jsstring) : jsstring := root ++ reqPath.

(** [path.relative] from a root to a file below it. *)
Definition strip_root (root path : jsstring) : jsstring :=
  drop (S (length root)) path.

Definition sample_script : jsstring := lit "(function () { connect(); })();".

(** A site with a page, a style sheet, an image, and a page and a style
    sheet that cannot be read. *)
Definition sample_disk : gmap jsstring (option jsstring) :=
  <[lit "/site/index.html" := Some (lit "<html><head></head></html>")]>
    (<[lit "/site/style.css" := Some (lit "p { color: red }")]>
       (<[lit "/site/logo.png" := Some (lit "PNG")]>
          (<[lit "/site/locked.html" := None]>
             (<[lit "/site/locked.css" := None]> ∅)))).

(** ** Static file server *)

Section Server.

(** [path.extname], [toLowerCase], [path.join], [path.relative] and the text
    of the client script are taken as given: the request handler hands the
    script out as it is. *)
Variable extname : jsstring → jsstring.
Variable toLowerCase : jsstring → jsstring.
Variable pathJoin : jsstring → jsstring → jsstring.
Variable pathRelative : jsstring → jsstring → jsstring.
Variable CLIENT_SCRIPT : jsstring.

(** The object literal of [mimeType].  An extension is empty or starts with a
    dot, so no inherited property of the object is ever looked up. *)
Definition MIME_TABLE : list (jsstring * jsstring) :=
  [(lit ".html", lit "text/html; charset=utf-8");
   (lit ".htm", lit "text/html; charset=utf-8");
   (lit ".css", lit "text/css; charset=utf-8");
   (lit ".js", lit "application/javascript; charset=utf-8");
   (lit ".json", lit "application/json");
   (lit ".png", lit "image/png");
   (lit ".jpg", lit "image/jpeg");
   (lit ".jpeg", lit "image/jpeg");
   (lit ".svg", lit "image/svg+xml")].

Definition OCTET_STREAM : jsstring := lit "application/octet-stream".

Definition mimeType (filePath : jsstring) : jsstring :=
  let ext := toLowerCase (extname filePath) in
  default OCTET_STREAM ((list_to_map MIME_TABLE : gmap jsstring jsstring) !! ext).

(** What [res.end] or [pipe] puts on the wire: a text, or the bytes of the
    file at a path, streamed. *)
Inductive Body :=
| Text (text : jsstring)
| Stream (path : jsstring).

Record Response := {
  status : nat;
  headers : list (jsstring * jsstring);
  body : Body
}.

(** The request handler answers, or an exception leaves it. *)
Inductive Outcome :=
| Responded (r : Response)
| Threw.

Definition NO_STORE : jsstring * jsstring := (lit "Cache-Control", lit "no-store").

(** [req.url || "/"], with the root mapped to the index page. *)
Definition requestPath (url : option jsstring) : jsstring :=
  let reqPath := match url with
                 | Some (c :: u) => c :: u
                 | _ => lit "/"
                 end in
  if bool_decide (reqPath = lit "/") then lit "/index.html" else reqPath.

Definition RESERVED : jsstring := lit "/flashsync.js".

(** The callback given to [http.createServer], for the [root] its
    [startServer] call captured and the value [port] of [activePort] when the
    request arrives.  The disk maps the paths that exist to their text, or to
    [None] when [readFileSync] throws on them; [url] is [req.url]. *)
Definition handleRequest (root : jsstring) (port : N)
    (disk : gmap jsstring (option jsstring)) (url : option jsstring) : Outcome :=
  let reqPath := requestPath url in
  if bool_decide (reqPath = RESERVED) then
    Responded {| status := 200;
                 headers := [(lit "Content-Type", lit "application/javascript");
                             NO_STORE];
                 body := Text CLIENT_SCRIPT |}
  else
    let file := pathJoin root reqPath in
    match disk !! file with
    | None =>
        Responded {| status := 404;
                     headers := [(lit "Content-Type", lit "text/plain")];
                     body := Text (lit "404 - Not found") |}
    | Some content =>
        let mime := mimeType file in
        if startsWith (lit "text/html") mime then
          match content with
          | Some html =>
              Responded {| status := 200;
                           headers := [(lit "Content-Type", mime); NO_STORE];
                           body := Text (injectScript html port) |}
          | None =>
              Responded {| status := 500; headers := [];
                           body := Text (lit "Server error") |}
          end
        else if includes (lit "text") mime then
          match content with
          | Some text =>
              Responded {| status := 200;
                           headers := [(lit "Content-Type", mime); NO_STORE];
                           body := Text text |}
          | None => Threw
          end
        else
          Responded {| status := 200;
                       headers := [(lit "Content-Type", mime); NO_STORE];
                       body := Stream file |}
    end.

(** ** Which file to open *)

Record Uri := { scheme : jsstring; fsPath : jsstring }.

Definition BACKSLASH : N := 92%N.
Definition SLASH : N := 47%N.

(** [s.replace(/\\/g, "/")] *)
Definition slashes (s : jsstring) : jsstring :=
  (λ c, if (c =? BACKSLASH)%N then SLASH else c) <$> s.

Definition isHtmlPath (p : jsstring) : bool :=
  bool_decide (toLowerCase (extname p) ∈ [lit ".html"; lit ".htm"]).

Definition INDEX_HTML : jsstring := lit "index.html".

(** [chooseOpenPath]; [active] is the file name of the active editor, if
    there is one. *)
Definition chooseOpenPath (root : option jsstring) (uri : option Uri)
    (active : option jsstring) : jsstring :=
  match root with
  | None | Some [] => INDEX_HTML
  | Some root =>
      let clicked :=
        match uri with
        | Some u =>
            if bool_decide (scheme u = lit "file")
               && (isHtmlPath (fsPath u) && startsWith root (fsPath u))
            then Some (slashes (pathRelative root (fsPath u)))
            else None
        | None => None
        end in
      match clicked with
      | Some rel => rel
      | None =>
          match active with
          | Some (c :: a) =>
              if startsWith root (c :: a) then
                if isHtmlPath (c :: a)
                then slashes (pathRelative root (c :: a))
                else INDEX_HTML
              else INDEX_HTML
          | _ => INDEX_HTML
          end
      end
  end.

(** ** The client script *)

(** [s.endsWith(suffix)] *)
Definition endsWith (suffix s : jsstring) : bool :=
  startsWith (reverse suffix) (reverse s).

(** The object [JSON.parse] returns in the browser; a field may be absent. *)
Record ParsedMessage := {
  msgFile : option jsstring;
  msgContent : option jsstring
}.

(** What the browser parses out of the frame the server made of a payload. *)
Definition received (m : ChangeMessage) : ParsedMessage :=
  {| msgFile := Some (file m); msgContent := Some (content m) |}.

Inductive ClientAction :=
| ApplyCSS (cssText : jsstring)
| PatchHTML (html : jsstring)
| NoAction.

(** The body of [ws.onmessage] once the frame is parsed. *)
Definition onMessage (d : ParsedMessage) : ClientAction :=
  let name := toLowerCase (default [] (msgFile d)) in
  if endsWith (lit ".css") name then ApplyCSS (default [] (msgContent d))
  else if endsWith (lit ".html") name then PatchHTML (default [] (msgContent d))
  else NoAction.

End Server.

Section Engine.

(** [path.extname] and [String.prototype.toLowerCase] belong to the platform;
    the engine is modelled over any two such functions. *)
Variable extname : jsstring → jsstring.
Variable toLowerCase : jsstring → jsstring.

Definition WATCHED : list jsstring := [lit ".html"; lit ".htm"; lit ".css"].

Definition watched (name : jsstring) : bool :=
  bool_decide (toLowerCase (extname name) ∈ WATCHED).

Definition openClients (clients : list Client) : list nat :=
  clientId <$> filter (λ c, readyState c = 1) clients.

Definition broadcastIfAllowed (w : World) (doc : TextDocument) : list Effect :=
  match wss w with
  | None => []
  | Some clients =>
      if negb (bool_decide (serverState w = running_editing)) then []
      else if negb (watched (fileName doc)) then []
      else [Broadcast {| file := fileName doc; content := getText doc |}
                      (openClients clients)]
  end.

(** The effects that put a message on the sockets. *)
Definition is_broadcast (e : Effect) : bool :=
  match e with
  | Broadcast _ _ => true
  | _ => false
  end.

(** The three tests of [broadcastIfAllowed], taken together. *)
Definition gate_open (w : World) (doc : TextDocument) : bool :=
  bool_decide (is_Some (wss w)) && bool_decide (serverState w = running_editing)
  && watched (fileName doc).

(** The one fan-out of [broadcastIfAllowed]. *)
Definition broadcastOf (w : World) (doc : TextDocument) : Effect :=
  Broadcast {| file := fileName doc; content := getText doc |}
            (openClients (default [] (wss w))).

(** The handler given to [onDidChangeTextDocument]. *)
Definition onDidChangeTextDocument (key : jsstring) (w : World) : World :=
  let w1 := match debounceTimers w !! key with
            | Some old => clearTimeout old w
            | None => w
            end in
  let '(id, w2) := setTimeout key DEBOUNCE_MS w1 in
  set_debounceTimers (<[key := id]> (debounceTimers w2)) w2.

(** The world after the editor has changed the text of the document under
    [key] and has told the extension. *)
Definition edit (key : jsstring) (doc : TextDocument) (text : jsstring) (w : World)
  : World :=
  onDidChangeTextDocument key
    (set_documents
       (<[key := {| fileName := fileName doc; getText := text |}]> (documents w)) w).

(** The callback of a debounce timer, run by the event loop for the timeout
    [id] that captured the document under [key]. *)
Definition fire (id : nat) (key : jsstring) (w : World) : World :=
  set_debounceTimers (delete key (debounceTimers w)) (clearTimeout id w).

(** The callback of a debounce timer. *)
Definition debounceCallback (key : jsstring) (doc : TextDocument) (w : World)
  : World * list Effect :=
  let out := broadcastIfAllowed w doc in
  (set_debounceTimers (delete key (debounceTimers w)) w, out).

(** The handler given to [onDidSaveTextDocument]. *)
Definition onDidSaveTextDocument (doc : TextDocument) (w : World)
  : World * list Effect :=
  (w, broadcastIfAllowed w doc).

(** [startServer] up to its [await]. *)
Definition startServer_enter (root : jsstring) (w : World) : World * list Effect :=
  match httpServer w with
  | Some _ => (w, [StartReturned (activePort w)])
  | None =>
      (set_starting (starting w ++ [root]) (set_currentRoot (Some root) w),
       [ProbePort 9090%N])
  end.

(** [startServer] from the point where [getFreePort] has resolved to [port]. *)
Definition startServer_resume (port : N) (w : World) : World * list Effect :=
  let w1 := set_activePort (Some port) w in
  let w2 := set_httpServer (Some port) w1 in
  let w3 := set_listening (S (listening w2)) w2 in
  let w4 := set_wss (Some []) w3 in
  let w5 := if listenersRegistered w4 then w4
            else set_listenersRegistered true w4 in
  (w5, [CreateListener port; CreateHub; StartReturned (activePort w5)]).

(** The callback given to [httpServer.listen]. *)
Definition onListening (w : World) : World :=
  set_serverState running_editing w.

Definition stopServer (w : World) : World * list Effect :=
  let e1 := match wss w with Some _ => [CloseHub] | None => [] end in
  let e2 := match httpServer w with Some _ => [CloseListener] | None => [] end in
  (set_serverState stopped
     (set_activePort None (set_httpServer None (set_wss None w))),
   e1 ++ e2).

Definition deactivate (w : World) : World * list Effect :=
  let e1 := match wss w with Some _ => [CloseHub] | None => [] end in
  let e2 := match httpServer w with Some _ => [CloseListener] | None => [] end in
  let w1 := map_fold (λ _ t acc, clearTimeout t acc) w (debounceTimers w) in
  (set_debounceTimers ∅ w1, e1 ++ e2).

(** The command [flashsync.toggle]; [folder] is the workspace folder the
    editor offers when no root is known yet. *)
Definition toggle (folder : option jsstring) (w : World) : World * list Effect :=
  match serverState w with
  | stopped =>
      match or_else (currentRoot w) folder with
      | Some (c :: root) => startServer_enter (c :: root) w
      | _ => (w, [])
      end
  | running_editing => (set_serverState running_paused w, [])
  | running_paused => (set_serverState running_editing w, [])
  end.

(** The command [flashsync.openFile]. *)
Definition openFile (folder : option jsstring) (w : World) : World * list Effect :=
  match or_else (currentRoot w) folder with
  | Some (c :: root) => startServer_enter (c :: root) w
  | _ => (w, [])
  end.

Definition update_client (id rs : nat) (c : Client) : Client :=
  if bool_decide (clientId c = id) then {| clientId := id; readyState := rs |}
  else c.

(** One turn of the event loop.  [None] means that the event cannot happen in
    this world: a timer that is not pending or not yet due, an edit of a
    document the editor does not hold, a resumption nobody waits for. *)
Definition step (w : World) (e : Event) : option (World * list Effect) :=
  match e with
  | CmdToggle folder => Some (toggle folder w)
  | CmdStop => Some (stopServer w)
  | CmdOpenFile folder => Some (openFile folder w)
  | PortFound port =>
      match starting w with
      | [] => None
      | _ :: rest => Some (startServer_resume port (set_starting rest w))
      end
  | Listening =>
      match listening w with
      | O => None
      | S n => Some (onListening (set_listening n w), [])
      end
  | Deactivate => Some (deactivate w)
  | DidOpen key doc =>
      match documents w !! key with
      | Some _ => None
      | None => Some (set_documents (<[key := doc]> (documents w)) w, [])
      end
  | DidChange key text =>
      match documents w !! key with
      | None => None
      | Some doc =>
          let doc' := {| fileName := fileName doc; getText := text |} in
          let w1 := set_documents (<[key := doc']> (documents w)) w in
          Some (if listenersRegistered w1 then onDidChangeTextDocument key w1
                else w1, [])
      end
  | DidSave key =>
      match documents w !! key with
      | None => None
      | Some doc =>
          Some (if listenersRegistered w then onDidSaveTextDocument doc w
                else (w, []))
      end
  | TimerFire id =>
      match timeouts w !! id with
      | None => None
      | Some (due, key) =>
          if negb (due <=? clock w)%N then None
          else match documents w !! key with
               | None => None
               | Some doc => Some (debounceCallback key doc (clearTimeout id w))
               end
      end
  | Tick dt => Some (set_clock (clock w + dt)%N w, [])
  | ClientConnect id =>
      match wss w with
      | None => None
      | Some clients =>
          Some (set_wss (Some (clients ++ [{| clientId := id; readyState := 1 |}])) w, [])
      end
  | ClientState id rs =>
      match wss w with
      | None => None
      | Some clients => Some (set_wss (Some (update_client id rs <$> clients)) w, [])
      end
  | ClientGone id =>
      match wss w with
      | None => None
      | Some clients =>
          Some (set_wss (Some (filter (λ c, clientId c ≠ id) clients)) w, [])
      end
  end.

Fixpoint run (w : World) (evs : list Event) : option (World * list Effect) :=
  match evs with
  | [] => Some (w, [])
  | e :: evs' =>
      match step w e with
      | None => None
      | Some (w1, out1) =>
          match run w1 evs' with
          | None => None
          | Some (w2, out2) => Some (w2, out1 ++ out2)
          end
      end
  end.

Definition reachable (w : World) : Prop :=
  ∃ evs out, run initial evs = Some (w, out).

(** Further edits of the document under [key], each after a delay. *)
Definition follow (key : jsstring) (more : list (N * jsstring)) : list Event :=
  flat_map (λ p, [Tick p.1; DidChange key p.2]) more.

(** [N >= 1] edits of the document under [key]: the first one, then each
    further one after a delay. *)
Definition burst (key : jsstring) (text : jsstring) (more : list (N * jsstring))
  : list Event :=
  DidChange key text :: follow key more.

Definition lastText (text : jsstring) (more : list (N * jsstring)) : jsstring :=
  default text (last (text :: (snd <$> more))).

(** The document under [key] has just been edited: its timer is the one
    handed out last and is due a full quiet window from now. *)
Definition just_edited (key : jsstring) (doc : TextDocument) (w : World) : Prop :=
  listenersRegistered w = true ∧ documents w !! key = Some doc ∧
  ∃ id, debounceTimers w !! key = Some id ∧
        timeouts w !! id = Some ((clock w + DEBOUNCE_MS)%N, key) ∧
        nextTimeout w = S id.

(** Every pending timeout is the one [debounceTimers] records for the
    document it captured, its identifier has been handed out, and its
    document is held by the editor. *)
Definition timers_ok (w : World) : Prop :=
  (∀ key id, debounceTimers w !! key = Some id ↔
             ∃ due, timeouts w !! id = Some (due, key)) ∧
  (∀ id, is_Some (timeouts w !! id) → id < nextTimeout w) ∧
  (∀ id due key, timeouts w !! id = Some (due, key) →
                 is_Some (documents w !! key)).

(** ** Invariants of the session *)

(** The listener, the hub and the active port exist together, and before
    the first start nothing is registered, scheduled or running. *)
Definition session_ok (w : World) : Prop :=
  activePort w = httpServer w ∧
  (wss w = None ↔ httpServer w = None) ∧
  (listenersRegistered w = false →
     httpServer w = None ∧ serverState w = stopped ∧ listening w = 0 ∧
     debounceTimers w = ∅ ∧ timeouts w = ∅).

(** The timeout [id] has been handed out and is not pending. *)
Definition spent (id : nat) (w : World) : Prop :=
  timeouts w !! id = None ∧ id < nextTimeout w.

(** * Properties *)

(** ** The engine *)

(** From [step w e = Some (w', out)], what [out] is. *)
Ltac take_out H Hb :=
  apply (f_equal (fmap snd)) in H; cbn [fmap option_fmap option_map snd] in H;
  injection H as H; rewrite <- H in Hb; clear H.

Lemma broadcastIfAllowed_gate (w : World) (doc : TextDocument) :
  broadcastIfAllowed w doc
  = if gate_open w doc then [broadcastOf w doc] else [].
Proof.
  unfold broadcastIfAllowed, gate_open, broadcastOf.
  destruct (wss w) as [clients|]; [|done].
  rewrite (bool_decide_true (is_Some (Some clients))) by (by eexists).
  destruct (bool_decide (serverState w = running_editing)); simpl; [|done].
  by destruct (watched (fileName doc)).
Qed.

Lemma broadcastIfAllowed_inv (w : World) (doc : TextDocument) (b : Effect) :
  b ∈ broadcastIfAllowed w doc →
  is_Some (wss w) ∧ serverState w = running_editing ∧
  watched (fileName doc) = true ∧ b = broadcastOf w doc.
Proof.
  rewrite broadcastIfAllowed_gate. unfold gate_open.
  destruct (bool_decide (is_Some (wss w))) eqn:E1; simpl;
    [|by intros ?%elem_of_nil].
  destruct (bool_decide (serverState w = running_editing)) eqn:E2; simpl;
    [|by intros ?%elem_of_nil].
  destruct (watched (fileName doc)) eqn:E3; [|by intros ?%elem_of_nil].
  intros ->%list_elem_of_singleton.
  apply bool_decide_eq_true in E1, E2. done.
Qed.

Lemma startServer_enter_quiet (root : jsstring) (w : World) (b : Effect) :
  b ∈ (startServer_enter root w).2 → is_broadcast b = false.
Proof.
  unfold startServer_enter. destruct (httpServer w); simpl;
    by intros ->%list_elem_of_singleton.
Qed.

Lemma stopServer_quiet (w : World) (b : Effect) :
  b ∈ (stopServer w).2 → is_broadcast b = false.
Proof.
  unfold stopServer. simpl. destruct (wss w), (httpServer w); simpl;
    intros H; repeat (apply elem_of_cons in H as [->|H]; [done|]);
    by apply elem_of_nil in H.
Qed.

(** Whatever happens, a broadcast comes from the save handler or from a
    debounce timer, for a document the editor holds, and only through
    [broadcastIfAllowed] in the world as it is at that moment. *)
Lemma step_broadcast (w w' : World) (e : Event) (out : list Effect) (b : Effect) :
  step w e = Some (w', out) → b ∈ out → is_broadcast b = true →
  ∃ key doc, documents w !! key = Some doc ∧
             b ∈ broadcastIfAllowed w doc ∧
             (e = DidSave key ∨
              ∃ id due, e = TimerFire id ∧ timeouts w !! id = Some (due, key)).
Proof.
  intros Hstep Hb Hbc. destruct e; simpl in Hstep.
  - take_out Hstep Hb. unfold toggle in Hb.
    repeat case_match; simpl in Hb;
      try (by apply elem_of_nil in Hb);
      apply startServer_enter_quiet in Hb; congruence.
  - take_out Hstep Hb. apply stopServer_quiet in Hb. congruence.
  - take_out Hstep Hb. unfold openFile in Hb.
    repeat case_match; simpl in Hb;
      try (by apply elem_of_nil in Hb);
      apply startServer_enter_quiet in Hb; congruence.
  - destruct (starting w); [done|]. take_out Hstep Hb.
    simpl in Hb. repeat (apply elem_of_cons in Hb as [->|Hb]; [done|]).
    by apply elem_of_nil in Hb.
  - destruct (listening w); [done|]. take_out Hstep Hb.
    by apply elem_of_nil in Hb.
  - take_out Hstep Hb. simpl in Hb.
    destruct (wss w), (httpServer w); simpl in Hb;
      repeat (apply elem_of_cons in Hb as [->|Hb]; [done|]);
      by apply elem_of_nil in Hb.
  - destruct (documents w !! key); [done|]. take_out Hstep Hb.
    by apply elem_of_nil in Hb.
  - destruct (documents w !! key); [|done]. take_out Hstep Hb.
    by apply elem_of_nil in Hb.
  - destruct (documents w !! key) as [doc|] eqn:Hdoc; [|done].
    take_out Hstep Hb. exists key, doc.
    destruct (listenersRegistered w); simpl in Hb; [|by apply elem_of_nil in Hb].
    eauto.
  - destruct (timeouts w !! id) as [[due key]|] eqn:Ht; [|done].
    destruct (negb (due <=? clock w)%N); [done|].
    destruct (documents w !! key) as [doc|] eqn:Hdoc; [|done].
    take_out Hstep Hb. exists key, doc. simpl in Hb. eauto 10.
  - take_out Hstep Hb. by apply elem_of_nil in Hb.
  - destruct (wss w); [|done]. take_out Hstep Hb. by apply elem_of_nil in Hb.
  - destruct (wss w); [|done]. take_out Hstep Hb. by apply elem_of_nil in Hb.
  - destruct (wss w); [|done]. take_out Hstep Hb. by apply elem_of_nil in Hb.
Qed.


(** *** One turn at a time *)

Lemma run_cons (w : World) (e : Event) (evs : list Event) :
  run w (e :: evs) =
  match step w e with
  | None => None
  | Some (w1, out1) =>
      match run w1 evs with
      | None => None
      | Some (w2, out2) => Some (w2, out1 ++ out2)
      end
  end.
Proof. done. Qed.

Lemma run_app (w : World) (evs1 evs2 : list Event) :
  run w (evs1 ++ evs2) =
  match run w evs1 with
  | None => None
  | Some (w1, out1) =>
      match run w1 evs2 with
      | None => None
      | Some (w2, out2) => Some (w2, out1 ++ out2)
      end
  end.
Proof.
  revert w. induction evs1 as [|e evs1 IH]; intros w.
  - simpl. by destruct (run w evs2) as [[] |].
  - rewrite <- app_comm_cons, !run_cons. destruct (step w e) as [[w1 o1]|]; [|done].
    rewrite IH. destruct (run w1 evs1) as [[w2 o2]|]; [|done].
    destruct (run w2 evs2) as [[w3 o3]|]; [|done]. by rewrite app_assoc.
Qed.

Lemma edit_fields (key : jsstring) (doc : TextDocument) (text : jsstring) (w : World) :
  edit key doc text w =
  {| wss := wss w; httpServer := httpServer w; activePort := activePort w;
     currentRoot := currentRoot w; listenersRegistered := listenersRegistered w;
     debounceTimers := <[key := nextTimeout w]> (debounceTimers w);
     serverState := serverState w;
     timeouts := <[nextTimeout w := ((clock w + DEBOUNCE_MS)%N, key)]>
                   (match debounceTimers w !! key with
                    | Some old => delete old (timeouts w)
                    | None => timeouts w
                    end);
     nextTimeout := S (nextTimeout w); clock := clock w;
     documents := <[key := {| fileName := fileName doc; getText := text |}]>
                    (documents w);
     starting := starting w; listening := listening w |}.
Proof.
  unfold edit, onDidChangeTextDocument. simpl.
  by destruct (debounceTimers w !! key).
Qed.

Lemma step_DidChange (w : World) (key : jsstring) (doc : TextDocument) (text : jsstring) :
  listenersRegistered w = true → documents w !! key = Some doc →
  step w (DidChange key text) = Some (edit key doc text w, []).
Proof. intros Hreg Hdoc. simpl. rewrite Hdoc. simpl. by rewrite Hreg. Qed.

Lemma step_DidSave (w : World) (key : jsstring) (doc : TextDocument) :
  listenersRegistered w = true → documents w !! key = Some doc →
  step w (DidSave key) = Some (w, broadcastIfAllowed w doc).
Proof. intros Hreg Hdoc. simpl. by rewrite Hdoc, Hreg. Qed.

Lemma step_TimerFire (w : World) (id : nat) (due : N) (key : jsstring) (doc : TextDocument) :
  timeouts w !! id = Some (due, key) → (due ≤ clock w)%N →
  documents w !! key = Some doc →
  step w (TimerFire id) = Some (fire id key w, broadcastIfAllowed w doc).
Proof.
  intros Ht Hdue Hdoc. simpl. rewrite Ht.
  apply N.leb_le in Hdue. rewrite Hdue. simpl. by rewrite Hdoc.
Qed.

Lemma step_TimerFire_early (w : World) (id : nat) (due : N) (key : jsstring) :
  timeouts w !! id = Some (due, key) → (clock w < due)%N →
  step w (TimerFire id) = None.
Proof.
  intros Ht Hdue. simpl. rewrite Ht.
  apply N.leb_gt in Hdue. by rewrite Hdue.
Qed.

Lemma step_Tick (w : World) (dt : N) :
  step w (Tick dt) = Some (set_clock (clock w + dt)%N w, []).
Proof. done. Qed.

Lemma step_pause (w : World) (folder : option jsstring) :
  serverState w = running_editing →
  step w (CmdToggle folder) = Some (set_serverState running_paused w, []).
Proof. intros H. simpl. unfold toggle. by rewrite H. Qed.

Lemma step_resume (w : World) (folder : option jsstring) :
  serverState w = running_paused →
  step w (CmdToggle folder) = Some (set_serverState running_editing w, []).
Proof. intros H. simpl. unfold toggle. by rewrite H. Qed.

Lemma step_stop (w : World) :
  step w CmdStop = Some ((stopServer w).1, (stopServer w).2).
Proof. done. Qed.

Lemma broadcastIfAllowed_closed (w : World) (doc : TextDocument) :
  serverState w ≠ running_editing ∨ wss w = None ∨ watched (fileName doc) = false →
  broadcastIfAllowed w doc = [].
Proof.
  intros H. rewrite broadcastIfAllowed_gate. unfold gate_open.
  destruct H as [H | [H | H]].
  - rewrite (bool_decide_false (serverState w = running_editing)) by done.
    by rewrite andb_false_r.
  - rewrite H. rewrite bool_decide_false; [done|]. by intros [? ?].
  - rewrite H. by rewrite andb_false_r.
Qed.

(** *** State gating *)

(** C1: a change message is sent only in a world whose state is
    [running_editing] at that very turn, and whose hub exists.  In particular
    an edit made while editing is on, followed by a pause or a stop before
    its timer is due, sends nothing when the timer fires. *)
Theorem send_only_while_editing :
  (∀ w e w' out payload recipients,
      step w e = Some (w', out) → Broadcast payload recipients ∈ out →
      serverState w = running_editing ∧ is_Some (wss w)) ∧
  (∀ w key doc text gate folder dt,
      listenersRegistered w = true → documents w !! key = Some doc →
      serverState w = running_editing →
      gate = CmdToggle folder ∨ gate = CmdStop →
      (DEBOUNCE_MS ≤ dt)%N →
      ∃ w' out,
        run w [DidChange key text; gate; Tick dt; TimerFire (nextTimeout w)]
        = Some (w', out) ∧
        serverState w' ≠ running_editing ∧
        ∀ b, b ∈ out → is_broadcast b = false).
Proof.
  split.
  - intros w e w' out payload recipients Hstep Hb.
    destruct (step_broadcast w w' e out _ Hstep Hb eq_refl)
      as (key & doc & _ & Hin & _).
    apply broadcastIfAllowed_inv in Hin. tauto.
  - intros w key doc text gate folder dt Hreg Hdoc Hst Hgate Hdt.
    rewrite run_cons, (step_DidChange w key doc text Hreg Hdoc).
    set (doc' := {| fileName := fileName doc; getText := text |}).
    destruct Hgate as [-> | ->].
    + rewrite run_cons, step_pause by (by rewrite edit_fields).
      rewrite run_cons, step_Tick.
      rewrite run_cons.
      erewrite (step_TimerFire _ _ (clock w + DEBOUNCE_MS)%N key doc').
      * rewrite broadcastIfAllowed_closed by (left; by rewrite edit_fields).
        simpl. eexists _, _. split; [done|]. split.
        -- by rewrite edit_fields.
        -- by intros b ?%elem_of_nil.
      * rewrite edit_fields. simpl. by rewrite lookup_insert_eq.
      * rewrite edit_fields. simpl. lia.
      * rewrite edit_fields. simpl. by rewrite lookup_insert_eq.
    + rewrite run_cons, step_stop.
      rewrite run_cons, step_Tick.
      rewrite run_cons.
      erewrite (step_TimerFire _ _ (clock w + DEBOUNCE_MS)%N key doc').
      * rewrite broadcastIfAllowed_closed by (right; left; done).
        simpl. eexists _, _. split; [done|]. split.
        -- simpl. done.
        -- intros b Hb. rewrite !app_nil_r in Hb.
           by apply (stopServer_quiet (edit key doc text w)).
      * rewrite edit_fields. simpl. by rewrite lookup_insert_eq.
      * rewrite edit_fields. simpl. lia.
      * rewrite edit_fields. simpl. by rewrite lookup_insert_eq.
Qed.

(** *** Extension filter *)

(** C9: a document whose lower-cased extension is not [.html], [.htm] or
    [.css] never leads to a broadcast, whatever the state of the session:
    every broadcast is for a watched document, and neither an edit, nor a
    save, nor the timer of an edit of an unwatched document has any effect on
    the sockets. *)
Theorem unwatched_never_broadcast :
  (∀ w e w' out b,
      step w e = Some (w', out) → b ∈ out → is_broadcast b = true →
      ∃ key doc, documents w !! key = Some doc ∧
                 watched (fileName doc) = true ∧ b = broadcastOf w doc) ∧
  (∀ w key doc e w' out,
      documents w !! key = Some doc →
      toLowerCase (extname (fileName doc)) ∉ WATCHED →
      (∃ text, e = DidChange key text) ∨ e = DidSave key ∨
      (∃ id due, e = TimerFire id ∧ timeouts w !! id = Some (due, key)) →
      step w e = Some (w', out) → out = []).
Proof.
  split.
  - intros w e w' out b Hstep Hb Hbc.
    destruct (step_broadcast w w' e out b Hstep Hb Hbc)
      as (key & doc & Hdoc & Hin & _).
    apply broadcastIfAllowed_inv in Hin as (_ & _ & Hw & ->). eauto.
  - intros w key doc e w' out Hdoc Hext He Hstep.
    assert (∀ w0, broadcastIfAllowed w0 doc = []) as Hquiet.
    { intros w0. apply broadcastIfAllowed_closed. right; right.
      unfold watched. by apply bool_decide_eq_false. }
    destruct He as [[text ->] | [-> | (id & due & -> & Ht)]]; simpl in Hstep.
    + rewrite Hdoc in Hstep. by injection Hstep as _ <-.
    + rewrite Hdoc in Hstep. destruct (listenersRegistered w);
        injection Hstep as _ <-; [apply Hquiet | done].
    + rewrite Ht in Hstep. destruct (negb (due <=? clock w)%N); [done|].
      rewrite Hdoc in Hstep. injection Hstep as _ <-. apply Hquiet.
Qed.

(** *** Start and stop *)

(** C4: [startServer] on a running server changes nothing and returns the
    port in use, so that a first call followed by a second one probes once,
    creates one listener and one hub, and returns the same port twice;
    [stopServer] on a stopped engine closes nothing, changes nothing and
    leaves the state [stopped]. *)
Theorem start_stop_idempotent :
  (∀ w root, is_Some (httpServer w) →
      startServer_enter root w = (w, [StartReturned (activePort w)])) ∧
  (∀ w root root' port, httpServer w = None → starting w = [] →
      (startServer_enter root w).2 = [ProbePort 9090%N] ∧
      ∃ w2 w3,
        step (startServer_enter root w).1 (PortFound port)
        = Some (w2, [CreateListener port; CreateHub; StartReturned (Some port)]) ∧
        startServer_enter root' w2 = (w2, [StartReturned (Some port)]) ∧
        step w2 Listening = Some (w3, []) ∧
        serverState w3 = running_editing ∧
        startServer_enter root' w3 = (w3, [StartReturned (Some port)])) ∧
  (∀ w, stopServer (stopServer w).1 = ((stopServer w).1, []) ∧
        serverState (stopServer w).1 = stopped).
Proof.
  split; [|split].
  - intros w root [p Hp]. unfold startServer_enter. by rewrite Hp.
  - intros w root root' port Hs Hq. unfold startServer_enter at 1 2. rewrite Hs.
    split; [done|].
    cbn [fst step]. cbn [starting set_starting set_currentRoot].
    rewrite Hq. unfold startServer_resume, startServer_enter. cbn.
    destruct (listenersRegistered w); cbn; eexists _, _;
      (split; [reflexivity|]); (split; [reflexivity|]);
      (split; [reflexivity|]); split; reflexivity.
  - done.
Qed.

(** *** Timers after a stop *)

(** C5 fails on the code.  [stopServer] does not touch [debounceTimers] nor
    any timeout; [deactivate] is the one that cancels them.  An edit shortly
    before the stop command leaves the engine [stopped] with its timer still
    pending. *)
Theorem stop_leaves_timer_pending :
  (∀ w, debounceTimers (stopServer w).1 = debounceTimers w ∧
        timeouts (stopServer w).1 = timeouts w) ∧
  (∀ w, debounceTimers (deactivate w).1 = ∅) ∧
  ∃ w' out,
    run initial (go_live ++ [DidChange index_uri (lit "<p>two</p>"); CmdStop])
    = Some (w', out) ∧
    serverState w' = stopped ∧
    debounceTimers w' !! index_uri = Some 0 ∧
    timeouts w' !! 0 = Some (140%N, index_uri).
Proof.
  split; [done|]. split; [done|].
  eexists _, _. split; [vm_compute; reflexivity|].
  split; [reflexivity|]. split; vm_compute; reflexivity.
Qed.

(** *** The pending timers *)

Lemma timers_ok_frame (w w' : World) :
  debounceTimers w' = debounceTimers w → timeouts w' = timeouts w →
  nextTimeout w' = nextTimeout w → documents w' = documents w →
  timers_ok w → timers_ok w'.
Proof. unfold timers_ok. by intros -> -> -> ->. Qed.

Lemma timers_ok_initial : timers_ok initial.
Proof.
  unfold timers_ok. simpl. repeat split.
  - by rewrite lookup_empty.
  - intros [due H]. by rewrite lookup_empty in H.
  - intros id [x H]. by rewrite lookup_empty in H.
  - intros id due key H. by rewrite lookup_empty in H.
Qed.

Lemma timers_ok_open (w : World) (key : jsstring) (doc : TextDocument) :
  timers_ok w → timers_ok (set_documents (<[key := doc]> (documents w)) w).
Proof.
  intros (Ha & Hb & Hc). repeat split; simpl; try apply Ha; try apply Hb.
  intros id due k Hk. destruct (decide (key = k)) as [->|Hne].
  - rewrite lookup_insert_eq. by eexists.
  - rewrite lookup_insert_ne by done. by eapply Hc.
Qed.

Lemma timers_ok_edit (w : World) (key : jsstring) (doc : TextDocument) (text : jsstring) :
  timers_ok w → timers_ok (edit key doc text w).
Proof.
  intros (Ha & Hb & Hc). rewrite edit_fields.
  set (rest := match debounceTimers w !! key with
               | Some old => delete old (timeouts w)
               | None => timeouts w
               end).
  assert (∀ id x, rest !! id = Some x → timeouts w !! id = Some x) as Hrest.
  { intros id x. unfold rest. destruct (debounceTimers w !! key); [|done].
    intros H. by apply lookup_delete_Some in H as [_ H]. }
  assert (∀ id due, rest !! id ≠ Some (due, key)) as Hgone.
  { intros id due H. pose proof (Hrest _ _ H) as H'.
    assert (debounceTimers w !! key = Some id) as Hid by (apply Ha; eauto).
    unfold rest in H. rewrite Hid in H. by rewrite lookup_delete_eq in H. }
  assert (∀ id due k, k ≠ key → timeouts w !! id = Some (due, k) →
                      rest !! id = Some (due, k)) as Hkeep.
  { intros id due k Hne H. unfold rest.
    destruct (debounceTimers w !! key) as [old|] eqn:Hold; [|done].
    rewrite lookup_delete_ne; [done|]. intros ->.
    apply Ha in Hold as [due' Hold]. congruence. }
  assert (rest !! nextTimeout w = None) as Hfresh.
  { destruct (rest !! nextTimeout w) as [x|] eqn:E; [|done].
    apply Hrest in E. assert (nextTimeout w < nextTimeout w); [|lia].
    apply Hb. by eexists. }
  unfold timers_ok. simpl. split; [|split].
  - intros k id. destruct (decide (k = key)) as [->|Hne].
    + rewrite lookup_insert_eq. split.
      * intros [= <-]. rewrite lookup_insert_eq. by eexists.
      * intros [due H]. destruct (decide (id = nextTimeout w)) as [->|Hid]; [done|].
        rewrite lookup_insert_ne in H by done. by destruct (Hgone id due).
    + rewrite lookup_insert_ne by done. split.
      * intros [due H]%Ha. exists due.
        rewrite lookup_insert_ne; [by apply Hkeep|].
        intros <-. apply Hkeep in H; [|done]. congruence.
      * intros [due H]. destruct (decide (id = nextTimeout w)) as [->|Hid].
        -- rewrite lookup_insert_eq in H. congruence.
        -- rewrite lookup_insert_ne in H by done. apply Ha. eauto.
  - intros id [x H]. destruct (decide (id = nextTimeout w)) as [->|Hid]; [lia|].
    rewrite lookup_insert_ne in H by done. apply Hrest in H.
    assert (id < nextTimeout w); [|lia]. apply Hb. by eexists.
  - intros id due k H. destruct (decide (k = key)) as [->|Hne].
    + rewrite lookup_insert_eq. by eexists.
    + rewrite lookup_insert_ne by done.
      destruct (decide (id = nextTimeout w)) as [->|Hid].
      * rewrite lookup_insert_eq in H. congruence.
      * rewrite lookup_insert_ne in H by done. eapply Hc, Hrest, H.
Qed.

Lemma timers_ok_fire (w : World) (id : nat) (due : N) (key : jsstring) :
  timeouts w !! id = Some (due, key) → timers_ok w → timers_ok (fire id key w).
Proof.
  intros Ht (Ha & Hb & Hc). unfold timers_ok, fire. simpl. split; [|split].
  - intros k i. rewrite lookup_delete_Some. split.
    + intros [Hne [d H]%Ha]. exists d. rewrite lookup_delete_ne; [done|].
      intros <-. congruence.
    + intros [d H]. apply lookup_delete_Some in H as [Hid H]. split.
      * intros <-. assert (debounceTimers w !! key = Some id) as H1 by (apply Ha; eauto).
        assert (debounceTimers w !! key = Some i) as H2 by (apply Ha; eauto).
        congruence.
      * apply Ha. eauto.
  - intros i [x H]. apply lookup_delete_Some in H as [_ H]. apply Hb. by eexists.
  - intros i d k H. apply lookup_delete_Some in H as [_ H]. by eapply Hc.
Qed.

(** What [deactivate] leaves of the timeouts once it has cleared those that
    [debounceTimers] records. *)
Lemma clear_all (w : World) (m : gmap jsstring nat) :
  let w1 := map_fold (λ _ t acc, clearTimeout t acc) w m in
  nextTimeout w1 = nextTimeout w ∧ documents w1 = documents w ∧
  ∀ id x, timeouts w1 !! id = Some x →
          timeouts w !! id = Some x ∧ ∀ k, m !! k ≠ Some id.
Proof.
  cbn zeta.
  apply (map_fold_weak_ind
           (λ acc m, nextTimeout acc = nextTimeout w ∧ documents acc = documents w ∧
                     ∀ id x, timeouts acc !! id = Some x →
                             timeouts w !! id = Some x ∧ ∀ k, m !! k ≠ Some id)).
  - repeat split; try done; intros; by rewrite lookup_empty.
  - intros k t m' acc Hk (Hn & Hd & Ht). split; [done|]. split; [done|].
    intros id x H. split.
    + simpl in H. apply lookup_delete_Some in H as [_ H]. by apply Ht.
    + intros k'. simpl in H. apply lookup_delete_Some in H as [Hne H].
      destruct (decide (k = k')) as [->|Hkk].
      * rewrite lookup_insert_eq. congruence.
      * rewrite lookup_insert_ne by done. by apply Ht in H as [_ H].
Qed.

Lemma timers_ok_deactivate (w : World) :
  timers_ok w → timers_ok (deactivate w).1.
Proof.
  intros (Ha & Hb & Hc). unfold deactivate. cbn [fst].
  destruct (clear_all w (debounceTimers w)) as (Hn & Hd & Ht).
  set (w1 := map_fold _ w _) in *.
  assert (∀ id x, timeouts w1 !! id ≠ Some x) as Hnone.
  { intros id [due k] H. apply Ht in H as [H Hk].
    apply (Hk k), Ha. eauto. }
  unfold timers_ok. simpl. split; [|split].
  - intros k id. rewrite lookup_empty. split; [done|].
    intros [due H]. by destruct (Hnone id (due, k)).
  - intros id [x H]. by destruct (Hnone id x).
  - intros id due k H. by destruct (Hnone id (due, k)).
Qed.

Lemma step_timers_ok (w w' : World) (e : Event) (out : list Effect) :
  step w e = Some (w', out) → timers_ok w → timers_ok w'.
Proof.
  intros Hstep Hok. destruct e; simpl in Hstep.
  - injection Hstep as Hstep. apply (f_equal fst) in Hstep. simpl in Hstep. subst w'.
    unfold toggle, startServer_enter.
    repeat case_match; simpl; by apply (timers_ok_frame w).
  - injection Hstep as <- _. by apply (timers_ok_frame w).
  - injection Hstep as Hstep. apply (f_equal fst) in Hstep. simpl in Hstep. subst w'.
    unfold openFile, startServer_enter.
    repeat case_match; simpl; by apply (timers_ok_frame w).
  - destruct (starting w); [done|]. injection Hstep as <- _.
    simpl. destruct (listenersRegistered w); by apply (timers_ok_frame w).
  - destruct (listening w); [done|]. injection Hstep as <- _.
    by apply (timers_ok_frame w).
  - injection Hstep as <- _. by apply timers_ok_deactivate.
  - destruct (documents w !! key); [done|]. injection Hstep as <- _.
    by apply timers_ok_open.
  - destruct (documents w !! key) as [doc|]; [|done]. injection Hstep as <- _.
    cbn [listenersRegistered set_documents].
    destruct (listenersRegistered w).
    + by apply (timers_ok_edit w key doc text).
    + by apply timers_ok_open.
  - destruct (documents w !! key); [|done].
    destruct (listenersRegistered w); injection Hstep as <- _; done.
  - destruct (timeouts w !! id) as [[due key]|] eqn:Ht; [|done].
    destruct (negb (due <=? clock w)%N); [done|].
    destruct (documents w !! key); [|done]. injection Hstep as <- _.
    by apply (timers_ok_fire w id due key).
  - injection Hstep as <- _. by apply (timers_ok_frame w).
  - destruct (wss w); [|done]. injection Hstep as <- _. by apply (timers_ok_frame w).
  - destruct (wss w); [|done]. injection Hstep as <- _. by apply (timers_ok_frame w).
  - destruct (wss w); [|done]. injection Hstep as <- _. by apply (timers_ok_frame w).
Qed.

Lemma run_timers_ok (evs : list Event) (w w' : World) (out : list Effect) :
  run w evs = Some (w', out) → timers_ok w → timers_ok w'.
Proof.
  revert w out. induction evs as [|e evs IH]; intros w out Hrun Hok.
  - by injection Hrun as <- _.
  - rewrite run_cons in Hrun.
    destruct (step w e) as [[w1 o1]|] eqn:Hstep; [|done].
    destruct (run w1 evs) as [[w2 o2]|] eqn:Hrest; [|done].
    injection Hrun as <- _. eapply IH; [done|]. by eapply step_timers_ok.
Qed.

Lemma reachable_timers_ok (w : World) : reachable w → timers_ok w.
Proof.
  intros (evs & out & Hrun). eapply run_timers_ok; [done|]. apply timers_ok_initial.
Qed.

(** *** Debounce *)

Lemma lastText_cons (text : jsstring) (d : N) (t : jsstring) (more : list (N * jsstring)) :
  lastText text ((d, t) :: more) = lastText t more.
Proof.
  unfold lastText. rewrite fmap_cons. cbn [snd].
  change (last (text :: t :: (snd <$> more))) with (last (t :: (snd <$> more))).
  assert (is_Some (last (t :: (snd <$> more)))) as [x ->]; [|done].
  by apply last_is_Some.
Qed.

Lemma gate_open_frame (w w' : World) (doc doc' : TextDocument) :
  wss w' = wss w → serverState w' = serverState w → fileName doc' = fileName doc →
  gate_open w' doc' = gate_open w doc.
Proof. unfold gate_open. by intros -> -> ->. Qed.

Lemma edit_just_edited (w : World) (key : jsstring) (doc : TextDocument) (text : jsstring) :
  listenersRegistered w = true →
  just_edited key {| fileName := fileName doc; getText := text |}
              (edit key doc text w).
Proof.
  intros Hreg. rewrite edit_fields. unfold just_edited. simpl.
  split; [done|]. split; [by rewrite lookup_insert_eq|].
  exists (nextTimeout w). by rewrite !lookup_insert_eq.
Qed.

Lemma follow_run (key fname : jsstring) (more : list (N * jsstring)) :
  ∀ w text,
    just_edited key {| fileName := fname; getText := text |} w →
    Forall (λ p, (p.1 < DEBOUNCE_MS)%N) more →
    ∃ w1,
      run w (follow key more) = Some (w1, []) ∧
      just_edited key {| fileName := fname; getText := lastText text more |} w1 ∧
      wss w1 = wss w ∧ serverState w1 = serverState w ∧
      ∀ pre post, follow key more = pre ++ post →
        ∃ wp id, run w pre = Some (wp, []) ∧
                 debounceTimers wp !! key = Some id ∧
                 step wp (TimerFire id) = None.
Proof.
  induction more as [|[d t] more IH]; intros w text Hw Hmore.
  - exists w. split; [done|]. split; [done|]. split; [done|]. split; [done|].
    intros pre post Hsplit. symmetry in Hsplit.
    apply app_eq_nil in Hsplit as [-> _].
    destruct Hw as (_ & _ & id & Hid & Ht & _).
    exists w, id. split; [done|]. split; [done|].
    eapply step_TimerFire_early; [exact Ht | unfold DEBOUNCE_MS; lia].
  - apply Forall_cons in Hmore as [Hd Hmore]. simpl in Hd.
    pose proof Hw as (Hreg & Hdoc & id & Hid & Ht & Hn).
    set (wt := set_clock (clock w + d)%N w).
    set (doc := {| fileName := fname; getText := text |}) in *.
    assert (just_edited key {| fileName := fname; getText := t |} (edit key doc t wt))
      as Hedit by (by apply (edit_just_edited wt key doc t)).
    destruct (IH _ _ Hedit Hmore) as (w1 & Hrun & Hw1 & Hwss & Hst & Hpre).
    exists w1. rewrite lastText_cons.
    assert (run w (follow key ((d, t) :: more)) = Some (w1, [])) as Hrun'.
    { cbn [follow flat_map fst snd app]. rewrite run_cons, step_Tick.
      fold wt. rewrite run_cons, (step_DidChange wt key doc t Hreg Hdoc).
      fold (follow key more). by rewrite Hrun. }
    split; [done|]. split; [done|].
    split; [by rewrite Hwss, edit_fields|]. split; [by rewrite Hst, edit_fields|].
    intros pre post Hsplit. cbn [follow flat_map fst snd app] in Hsplit.
    fold (follow key more) in Hsplit.
    destruct pre as [|e1 [|e2 pre]].
    + exists w, id. repeat split; try done.
      eapply step_TimerFire_early; [done | unfold DEBOUNCE_MS; lia].
    + injection Hsplit as <- _. exists wt, id.
      rewrite run_cons, step_Tick. repeat split; try done.
      eapply step_TimerFire_early; [done | simpl; lia].
    + injection Hsplit as <- <- Hsplit.
      destruct (Hpre pre post Hsplit) as (wp & idp & Hrunp & Hidp & Hno).
      exists wp, idp. rewrite run_cons, step_Tick. fold wt.
      rewrite run_cons, (step_DidChange wt key doc t Hreg Hdoc).
      by rewrite Hrunp.
Qed.

(** C3, as the code has it.  In a reachable world with the listeners
    registered, let the document under [key] be edited once and then again
    after delays below the quiet window.  Nothing is sent meanwhile and the
    timer of the document cannot fire at any point of the sequence; afterwards
    exactly one timeout is pending for the document.  When it fires, a quiet
    window or more after the last edit, there is one broadcast with the text of
    the last edit if the gate of [broadcastIfAllowed] is open, none if it is
    closed, and no timeout of the document is left. *)
Theorem debounce_coalescing (w : World) (key : jsstring) (doc : TextDocument)
    (text : jsstring) (more : list (N * jsstring)) (dt : N) :
  reachable w → listenersRegistered w = true → documents w !! key = Some doc →
  Forall (λ p, (p.1 < DEBOUNCE_MS)%N) more → (DEBOUNCE_MS ≤ dt)%N →
  let doc' := {| fileName := fileName doc; getText := lastText text more |} in
  ∃ w1 w2 id,
    run w (burst key text more) = Some (w1, []) ∧
    (∀ pre post, burst key text more = pre ++ post → pre ≠ [] →
       ∃ wp idp, run w pre = Some (wp, []) ∧
                 debounceTimers wp !! key = Some idp ∧
                 step wp (TimerFire idp) = None) ∧
    debounceTimers w1 !! key = Some id ∧
    (∀ id' due, timeouts w1 !! id' = Some (due, key) → id' = id) ∧
    run w1 [Tick dt; TimerFire id]
    = Some (w2, if gate_open w doc then [broadcastOf w doc'] else []) ∧
    (∀ id' due, timeouts w2 !! id' ≠ Some (due, key)).
Proof.
  intros Hreach Hreg Hdoc Hmore Hdt doc'.
  apply reachable_timers_ok in Hreach.
  pose proof (edit_just_edited w key doc text Hreg) as Hedit.
  destruct (follow_run key (fileName doc) more _ _ Hedit Hmore)
    as (w1 & Hrun & Hw1 & Hwss & Hst & Hpre).
  rewrite edit_fields in Hwss, Hst. cbn [wss serverState] in Hwss, Hst.
  assert (run w (burst key text more) = Some (w1, [])) as Hburst.
  { unfold burst. rewrite run_cons, (step_DidChange w key doc text Hreg Hdoc).
    by rewrite Hrun. }
  pose proof (run_timers_ok _ _ _ _ Hburst Hreach) as Hok1.
  pose proof Hw1 as (Hreg1 & Hdoc1 & id & Hid & Ht & Hn).
  set (wt := set_clock (clock w1 + dt)%N w1).
  assert (step wt (TimerFire id)
          = Some (fire id key wt, broadcastIfAllowed wt doc')) as Hfire.
  { eapply step_TimerFire; [exact Ht | simpl; lia | exact Hdoc1]. }
  assert (timers_ok (fire id key wt)) as Hok2.
  { eapply (timers_ok_fire wt id); [exact Ht|]. by apply (timers_ok_frame w1). }
  exists w1, (fire id key wt), id. split; [done|]. split; [|split; [done|split; [|split]]].
  - intros pre post Hsplit Hne. unfold burst in Hsplit.
    destruct pre as [|e pre]; [done|]. injection Hsplit as <- Hsplit.
    destruct (Hpre pre post Hsplit) as (wp & idp & Hrunp & Hidp & Hno).
    exists wp, idp. rewrite run_cons, (step_DidChange w key doc text Hreg Hdoc).
    by rewrite Hrunp.
  - intros id' due H. destruct Hok1 as (Ha & _).
    assert (debounceTimers w1 !! key = Some id') by (apply Ha; eauto). congruence.
  - rewrite run_cons, step_Tick. fold wt. rewrite run_cons, Hfire. cbn [run].
    rewrite broadcastIfAllowed_gate.
    rewrite (gate_open_frame w wt doc doc') by done.
    unfold broadcastOf. change (wss wt) with (wss w1). rewrite Hwss.
    by destruct (gate_open w doc).
  - intros id' due H. destruct Hok2 as (Ha & _).
    assert (debounceTimers (fire id key wt) !! key = Some id') as Hk by (apply Ha; eauto).
    unfold fire in Hk. simpl in Hk. by rewrite lookup_delete_eq in Hk.
Qed.

(** *** Save *)

(** C7, as the code has it.  With the listeners registered, an edit of the
    document under [key] followed at once by a save makes the save handler
    broadcast immediately, if the gate is open, and leaves the timer of the
    edit pending; the timer fires later and broadcasts again, if the gate is
    open.  Both broadcasts carry the whole text of the document as it is then.
    With the gate closed neither is sent. *)
Theorem save_bypasses_debounce (w : World) (key : jsstring) (doc : TextDocument)
    (text : jsstring) (dt : N) :
  listenersRegistered w = true → documents w !! key = Some doc →
  (DEBOUNCE_MS ≤ dt)%N →
  let doc' := {| fileName := fileName doc; getText := text |} in
  let sent := if gate_open w doc then [broadcastOf w doc'] else [] in
  ∃ w1 w2,
    run w [DidChange key text; DidSave key] = Some (w1, sent) ∧
    debounceTimers w1 !! key = Some (nextTimeout w) ∧
    timeouts w1 !! nextTimeout w = Some ((clock w + DEBOUNCE_MS)%N, key) ∧
    run w1 [Tick dt; TimerFire (nextTimeout w)] = Some (w2, sent) ∧
    run w [DidChange key text; DidSave key; Tick dt; TimerFire (nextTimeout w)]
    = Some (w2, sent ++ sent).
Proof.
  intros Hreg Hdoc Hdt doc' sent.
  set (w1 := edit key doc text w).
  set (wt := set_clock (clock w1 + dt)%N w1).
  assert (documents w1 !! key = Some doc') as Hdoc1.
  { unfold w1. rewrite edit_fields. simpl. by rewrite lookup_insert_eq. }
  assert (timeouts w1 !! nextTimeout w = Some ((clock w + DEBOUNCE_MS)%N, key)) as Ht.
  { unfold w1. rewrite edit_fields. simpl. by rewrite lookup_insert_eq. }
  assert (∀ w', wss w' = wss w1 → serverState w' = serverState w1 →
                broadcastIfAllowed w' doc' = sent) as Hsent.
  { intros w' Hwss Hst. rewrite broadcastIfAllowed_gate.
    rewrite (gate_open_frame w w' doc doc');
      [| by rewrite Hwss; unfold w1; rewrite edit_fields
       | by rewrite Hst; unfold w1; rewrite edit_fields | done].
    unfold sent, broadcastOf. rewrite Hwss. unfold w1. by rewrite edit_fields. }
  assert (run w [DidChange key text; DidSave key] = Some (w1, sent)) as Hrun1.
  { rewrite run_cons, (step_DidChange w key doc text Hreg Hdoc). fold w1.
    rewrite run_cons, (step_DidSave w1 key doc');
      [| by unfold w1; rewrite edit_fields | done].
    cbn [run]. rewrite Hsent by done. by rewrite app_nil_r. }
  assert (run w1 [Tick dt; TimerFire (nextTimeout w)]
          = Some (fire (nextTimeout w) key wt, sent)) as Hrun2.
  { rewrite run_cons, step_Tick. fold wt.
    rewrite run_cons, (step_TimerFire wt _ (clock w + DEBOUNCE_MS)%N key doc');
      [| done | unfold wt, w1; rewrite edit_fields; simpl; lia | done].
    cbn [run]. rewrite Hsent by done. by rewrite app_nil_r. }
  exists w1, (fire (nextTimeout w) key wt). split; [done|]. split; [|split; [done|split; [done|]]].
  - unfold w1. rewrite edit_fields. simpl. by rewrite lookup_insert_eq.
  - change [DidChange key text; DidSave key; Tick dt; TimerFire (nextTimeout w)]
      with ([DidChange key text; DidSave key] ++ [Tick dt; TimerFire (nextTimeout w)]).
    by rewrite run_app, Hrun1, Hrun2.
Qed.

(** ** More on the session *)

Lemma clear_all_frame (w : World) (m : gmap jsstring nat) :
  let w1 := map_fold (λ _ t acc, clearTimeout t acc) w m in
  w1 = set_timeouts (timeouts w1) w.
Proof.
  cbn zeta.
  apply (map_fold_weak_ind (λ acc _, acc = set_timeouts (timeouts acc) w)).
  - by destruct w.
  - intros k t m' acc _ IH. rewrite IH at 1. unfold clearTimeout. simpl.
    by destruct w.
Qed.

Lemma deactivate_fields (w : World) :
  ∃ pending, (deactivate w).1 = set_debounceTimers ∅ (set_timeouts pending w).
Proof.
  unfold deactivate. cbn [fst].
  eexists. by rewrite (clear_all_frame w (debounceTimers w)) at 1.
Qed.

Lemma set_serverState_id (w : World) :
  set_serverState (serverState w) w = w.
Proof. by destruct w. Qed.

(** X1: pausing and resuming are inverse to each other: two presses of the
    toggle while the server runs give back the same world and do nothing
    else. *)
Theorem toggle_twice (w : World) (folder folder' : option jsstring) :
  serverState w ≠ stopped →
  run w [CmdToggle folder; CmdToggle folder'] = Some (w, []).
Proof.
  intros Hrun. destruct (serverState w) eqn:E; [done| |].
  - rewrite run_cons, step_pause by done.
    rewrite run_cons, step_resume by done. cbn [run app].
    do 2 f_equal. destruct w; simpl in *; by subst.
  - rewrite run_cons, step_resume by done.
    rewrite run_cons, step_pause by done. cbn [run app].
    do 2 f_equal. destruct w; simpl in *; by subst.
Qed.

(** X2: an edit made while editing is paused is not lost: if editing is resumed
    before the timer fires, the timer broadcasts the text of the edit,
    provided the hub exists and the file is watched. *)
Theorem edit_while_paused_then_resumed (w : World) (key : jsstring)
    (doc : TextDocument) (text : jsstring) (folder : option jsstring) (dt : N) :
  listenersRegistered w = true → documents w !! key = Some doc →
  serverState w = running_paused → (DEBOUNCE_MS ≤ dt)%N →
  let doc' := {| fileName := fileName doc; getText := text |} in
  ∃ w',
    run w [DidChange key text; CmdToggle folder; Tick dt; TimerFire (nextTimeout w)]
    = Some (w', if bool_decide (is_Some (wss w)) && watched (fileName doc)
                then [broadcastOf w doc'] else []).
Proof.
  intros Hreg Hdoc Hst Hdt doc'.
  rewrite run_cons, (step_DidChange w key doc text Hreg Hdoc).
  rewrite run_cons, step_resume by (by rewrite edit_fields).
  rewrite run_cons, step_Tick. rewrite run_cons.
  erewrite (step_TimerFire _ _ (clock w + DEBOUNCE_MS)%N key doc').
  - rewrite broadcastIfAllowed_gate. unfold gate_open, broadcastOf.
    rewrite edit_fields. cbn [wss serverState set_clock set_serverState clock].
    rewrite (bool_decide_true (running_editing = running_editing)) by done.
    rewrite andb_true_r. eexists. cbn [run]. rewrite app_nil_r. reflexivity.
  - rewrite edit_fields. simpl. by rewrite lookup_insert_eq.
  - rewrite edit_fields. simpl. lia.
  - rewrite edit_fields. simpl. by rewrite lookup_insert_eq.
Qed.

(** X3: an edit of one document leaves the timers of all other documents as
    they are. *)
Theorem edit_keeps_other_timers (w : World) (key key' : jsstring)
    (doc : TextDocument) (text : jsstring) :
  reachable w → listenersRegistered w = true → documents w !! key = Some doc →
  key' ≠ key →
  ∃ w', step w (DidChange key text) = Some (w', []) ∧
        debounceTimers w' !! key' = debounceTimers w !! key' ∧
        ∀ id due, timeouts w' !! id = Some (due, key') ↔
                  timeouts w !! id = Some (due, key').
Proof.
  intros Hreach Hreg Hdoc Hne. apply reachable_timers_ok in Hreach as (Ha & Hb & _).
  exists (edit key doc text w). split; [by apply step_DidChange|].
  rewrite edit_fields. simpl. split; [by rewrite lookup_insert_ne|].
  intros id due. destruct (decide (id = nextTimeout w)) as [->|Hid].
  - rewrite lookup_insert_eq. split; [congruence|].
    intros H. assert (nextTimeout w < nextTimeout w); [|lia].
    apply Hb. by eexists.
  - rewrite lookup_insert_ne by done.
    destruct (debounceTimers w !! key) as [old|] eqn:Hold; [|done].
    destruct (decide (id = old)) as [->|Hio].
    + rewrite lookup_delete_eq. split; [done|]. intros H.
      apply Ha in Hold as [due' Hold]. congruence.
    + by rewrite lookup_delete_ne.
Qed.

Lemma step_spent (w w' : World) (e : Event) (out : list Effect) (id : nat) :
  step w e = Some (w', out) → spent id w → spent id w'.
Proof.
  intros Hstep [Hnone Hlt]. unfold spent. destruct e; simpl in Hstep.
  - injection Hstep as Hstep. apply (f_equal fst) in Hstep. simpl in Hstep. subst w'.
    unfold toggle, startServer_enter. repeat case_match; simpl; by split.
  - injection Hstep as <- _; simpl; by split.
  - injection Hstep as Hstep. apply (f_equal fst) in Hstep. simpl in Hstep. subst w'.
    unfold openFile, startServer_enter. repeat case_match; simpl; by split.
  - destruct (starting w); [done|]. injection Hstep as <- _.
    simpl. destruct (listenersRegistered w); simpl; by split.
  - destruct (listening w); [done|]. injection Hstep as <- _; simpl; by split.
  - injection Hstep as <- _.
    destruct (clear_all w (debounceTimers w)) as (Hn & _ & Ht). simpl.
    set (w1 := map_fold _ w _) in *.
    split; [|by rewrite Hn].
    destruct (timeouts w1 !! id) as [x|] eqn:E; [|done].
    apply Ht in E as [E _]. congruence.
  - destruct (documents w !! key); [done|]. injection Hstep as <- _; simpl; by split.
  - destruct (documents w !! key) as [doc|]; [|done]. injection Hstep as <- _.
    cbn [listenersRegistered set_documents].
    destruct (listenersRegistered w); [|simpl; by split].
    fold (edit key doc text w). rewrite edit_fields. simpl. split; [|lia].
    rewrite lookup_insert_ne by lia.
    destruct (debounceTimers w !! key); [|done].
    by apply lookup_delete_None; right.
  - destruct (documents w !! key); [|done].
    destruct (listenersRegistered w); injection Hstep as <- _; simpl; by split.
  - destruct (timeouts w !! id0) as [[due key]|] eqn:Ht; [|done].
    destruct (negb (due <=? clock w)%N); [done|].
    destruct (documents w !! key); [|done]. injection Hstep as <- _.
    simpl. split; [|done]. by apply lookup_delete_None; right.
  - injection Hstep as <- _; simpl; by split.
  - destruct (wss w); [|done]. injection Hstep as <- _; simpl; by split.
  - destruct (wss w); [|done]. injection Hstep as <- _; simpl; by split.
  - destruct (wss w); [|done]. injection Hstep as <- _; simpl; by split.
Qed.

Lemma run_spent (evs : list Event) (w w' : World) (out : list Effect) (id : nat) :
  run w evs = Some (w', out) → spent id w → spent id w'.
Proof.
  revert w out. induction evs as [|e evs IH]; intros w out Hrun Hs.
  - by injection Hrun as <- _.
  - rewrite run_cons in Hrun.
    destruct (step w e) as [[w1 o1]|] eqn:Hstep; [|done].
    destruct (run w1 evs) as [[w2 o2]|] eqn:Hrest; [|done].
    injection Hrun as <- _. eapply IH; [done|]. by eapply step_spent.
Qed.

(** X4: a debounce timer fires at most once: after it has fired, whatever
    happens next, its identifier is never pending again. *)
Theorem timer_fires_once (w w1 w2 : World) (id : nat) (evs : list Event)
    (out1 out2 : list Effect) :
  reachable w → step w (TimerFire id) = Some (w1, out1) →
  run w1 evs = Some (w2, out2) →
  step w2 (TimerFire id) = None.
Proof.
  intros Hreach Hfire Hrun.
  apply reachable_timers_ok in Hreach as (_ & Hb & _).
  assert (spent id w1) as Hs.
  { simpl in Hfire. destruct (timeouts w !! id) as [[due key]|] eqn:Ht; [|done].
    destruct (negb (due <=? clock w)%N); [done|].
    destruct (documents w !! key); [|done]. injection Hfire as <- _.
    split; simpl; [by rewrite lookup_delete_eq|]. apply Hb. by eexists. }
  destruct (run_spent evs w1 w2 out2 id Hrun Hs) as [Hnone _].
  simpl. by rewrite Hnone.
Qed.

(** X5: [deactivate] cancels every pending timer: in any world the extension can
    reach, no timeout is left and no timer can fire after it. *)
Theorem deactivate_cancels_all (w : World) :
  reachable w →
  debounceTimers (deactivate w).1 = ∅ ∧ timeouts (deactivate w).1 = ∅ ∧
  ∀ id, step (deactivate w).1 (TimerFire id) = None.
Proof.
  intros Hreach. apply reachable_timers_ok in Hreach as (Ha & _ & _).
  assert (timeouts (deactivate w).1 = ∅) as Hempty.
  { apply map_empty. intros id. unfold deactivate. simpl.
    destruct (clear_all w (debounceTimers w)) as (_ & _ & Ht).
    set (w1 := map_fold _ w _) in *.
    destruct (timeouts w1 !! id) as [[due key]|] eqn:E; [|done].
    apply Ht in E as [E Hk]. destruct (Hk key). apply Ha. eauto. }
  split; [done|]. split; [done|].
  intros id. simpl in *. by rewrite Hempty, lookup_empty.
Qed.

Lemma session_ok_initial : session_ok initial.
Proof. by repeat split. Qed.

Lemma startServer_enter_session_ok (root : jsstring) (w : World) :
  session_ok w → session_ok (startServer_enter root w).1.
Proof. intros H. unfold startServer_enter. destruct (httpServer w); exact H. Qed.

Lemma step_session_ok (w w' : World) (e : Event) (out : list Effect) :
  step w e = Some (w', out) → session_ok w → session_ok w'.
Proof.
  intros Hstep Hok. pose proof Hok as (Hp & Hh & Hreg).
  destruct e; simpl in Hstep.
  - injection Hstep as Hstep. apply (f_equal fst) in Hstep. simpl in Hstep. subst w'.
    unfold toggle. destruct (serverState w) eqn:Es.
    + destruct (or_else (currentRoot w) folder) as [[|c root]|]; try exact Hok.
      by apply startServer_enter_session_ok.
    + split; [done|]. split; [done|]. intros Hr.
      destruct (Hreg Hr) as (_ & ? & _). congruence.
    + split; [done|]. split; [done|]. intros Hr.
      destruct (Hreg Hr) as (_ & ? & _). congruence.
  - injection Hstep as <- _. unfold session_ok. simpl. split; [done|]. split; [done|].
    intros Hr. destruct (Hreg Hr) as (_ & _ & ? & ? & ?). done.
  - injection Hstep as Hstep. apply (f_equal fst) in Hstep. simpl in Hstep. subst w'.
    unfold openFile.
    destruct (or_else (currentRoot w) folder) as [[|c root]|]; try exact Hok.
    by apply startServer_enter_session_ok.
  - destruct (starting w); [done|]. injection Hstep as <- _.
    unfold session_ok. simpl.
    destruct (listenersRegistered w) eqn:Er; simpl;
      (split; [done|]); (split; [done|]); intros Hr; congruence.
  - destruct (listening w) eqn:El; [done|]. injection Hstep as <- _.
    unfold session_ok. simpl. split; [done|]. split; [done|].
    intros Hr. destruct (Hreg Hr) as (_ & _ & ? & _). congruence.
  - destruct (deactivate_fields w) as [pending Hd].
    assert (w' = (deactivate w).1) as -> by (by injection Hstep as <- _).
    unfold session_ok.
    split; [by rewrite Hd|]. split; [by rewrite Hd|].
    intros Hr. rewrite Hd in Hr. simpl in Hr.
    destruct (Hreg Hr) as (? & ? & ? & Hdt & Hto).
    unfold deactivate. simpl. by rewrite Hdt, map_fold_empty.
  - destruct (documents w !! key); [done|]. injection Hstep as <- _. exact Hok.
  - destruct (documents w !! key) as [doc|]; [|done]. injection Hstep as <- _.
    cbn [listenersRegistered set_documents].
    destruct (listenersRegistered w) eqn:Er; [|exact Hok].
    fold (edit key doc text w). rewrite edit_fields. unfold session_ok. simpl.
    split; [done|]. split; [done|]. congruence.
  - destruct (documents w !! key); [|done].
    destruct (listenersRegistered w); injection Hstep as <- _; exact Hok.
  - destruct (timeouts w !! id) as [[due key]|] eqn:Ht; [|done].
    destruct (negb (due <=? clock w)%N); [done|].
    destruct (documents w !! key); [|done]. injection Hstep as <- _.
    unfold session_ok. simpl. split; [done|]. split; [done|].
    intros Hr. destruct (Hreg Hr) as (_ & _ & _ & _ & Hto).
    rewrite Hto, lookup_empty in Ht. done.
  - injection Hstep as <- _. exact Hok.
  - destruct (wss w) eqn:Ew; [|done]. injection Hstep as <- _.
    unfold session_ok. simpl.
    split; [done|]. split; [|done]. split; [done|]. intros H. by apply Hh in H.
  - destruct (wss w) eqn:Ew; [|done]. injection Hstep as <- _.
    unfold session_ok. simpl.
    split; [done|]. split; [|done]. split; [done|]. intros H. by apply Hh in H.
  - destruct (wss w) eqn:Ew; [|done]. injection Hstep as <- _.
    unfold session_ok. simpl.
    split; [done|]. split; [|done]. split; [done|]. intros H. by apply Hh in H.
Qed.

(** X6: in every world the extension can reach, the listener, the hub and the
    active port are set or unset together and the active port is the one
    the listener was given; and as long as no start has completed nothing is
    running, registered or scheduled. *)
Theorem reachable_session_ok (w : World) : reachable w → session_ok w.
Proof.
  intros (evs & out & Hrun). revert Hrun.
  generalize session_ok_initial. generalize initial. revert out.
  induction evs as [|e evs IH]; intros out w0 Hok Hrun.
  - by injection Hrun as <- _.
  - rewrite run_cons in Hrun.
    destruct (step w0 e) as [[w1 o1]|] eqn:Hstep; [|done].
    destruct (run w1 evs) as [[w2 o2]|] eqn:Hrest; [|done].
    injection Hrun as <- _. eapply IH; [|done]. by eapply step_session_ok.
Qed.

Lemma startServer_enter_state (root : jsstring) (w : World) :
  serverState (startServer_enter root w).1 = serverState w.
Proof. unfold startServer_enter. by destruct (httpServer w). Qed.

(** X7: the transitions of the state machine: the state becomes paused only from
    live editing and only by the toggle, stopped only by the stop command,
    and live editing only when a listener starts listening or by the toggle
    from paused. *)
Theorem state_transitions (w w' : World) (e : Event) (out : list Effect) :
  step w e = Some (w', out) → serverState w' ≠ serverState w →
  match serverState w' with
  | running_paused =>
      serverState w = running_editing ∧ ∃ folder, e = CmdToggle folder
  | stopped => e = CmdStop
  | running_editing =>
      e = Listening ∨
      (serverState w = running_paused ∧ ∃ folder, e = CmdToggle folder)
  end.
Proof.
  intros Hstep Hne. destruct e; simpl in Hstep.
  - injection Hstep as Hstep. apply (f_equal fst) in Hstep. simpl in Hstep. subst w'.
    revert Hne. unfold toggle. destruct (serverState w) eqn:Es.
    + destruct (or_else (currentRoot w) folder) as [[|c root]|];
        rewrite ?startServer_enter_state; simpl; congruence.
    + simpl. eauto.
    + simpl. eauto.
  - injection Hstep as <- _. simpl in *. done.
  - injection Hstep as Hstep. apply (f_equal fst) in Hstep. simpl in Hstep. subst w'.
    revert Hne. unfold openFile.
    destruct (or_else (currentRoot w) folder) as [[|c root]|];
      rewrite ?startServer_enter_state; simpl; congruence.
  - destruct (starting w); [done|]. injection Hstep as <- _.
    simpl in Hne. by destruct (listenersRegistered w).
  - destruct (listening w); [done|]. injection Hstep as <- _. simpl. by left.
  - destruct (deactivate_fields w) as [pending Hd].
    assert (w' = (deactivate w).1) as -> by (by injection Hstep as <- _).
    by rewrite Hd in Hne.
  - destruct (documents w !! key); [done|]. by injection Hstep as <- _.
  - destruct (documents w !! key) as [doc|]; [|done]. injection Hstep as <- _.
    cbn [listenersRegistered set_documents] in Hne.
    destruct (listenersRegistered w); [|done].
    fold (edit key doc text w) in Hne. by rewrite edit_fields in Hne.
  - destruct (documents w !! key); [|done].
    by destruct (listenersRegistered w); injection Hstep as <- _.
  - destruct (timeouts w !! id) as [[due key]|]; [|done].
    destruct (negb (due <=? clock w)%N); [done|].
    destruct (documents w !! key); [|done]. by injection Hstep as <- _.
  - by injection Hstep as <- _.
  - destruct (wss w); [|done]. by injection Hstep as <- _.
  - destruct (wss w); [|done]. by injection Hstep as <- _.
  - destruct (wss w); [|done]. by injection Hstep as <- _.
Qed.

(** X8: the guard of [startServer] looks at [httpServer], which is set only
    after the [await]: a second call made while the first one waits for its
    port probes again, and both calls create a listener and a hub.  The later
    pair replaces the earlier one in the module variables, so a stop closes
    one listener only. *)
Theorem start_twice_before_port (w : World) (f1 f2 : option jsstring)
    (c : N) (root : jsstring) (p1 p2 : N) :
  httpServer w = None → starting w = [] →
  or_else (currentRoot w) f1 = Some (c :: root) →
  ∃ w',
    run w [CmdOpenFile f1; CmdOpenFile f2; PortFound p1; PortFound p2; CmdStop]
    = Some (w', [ProbePort 9090%N; ProbePort 9090%N;
                 CreateListener p1; CreateHub; StartReturned (Some p1);
                 CreateListener p2; CreateHub; StartReturned (Some p2);
                 CloseHub; CloseListener]) ∧
    httpServer w' = None ∧ listening w' = S (S (listening w)).
Proof.
  intros Hh Hs Hroot. rewrite run_cons. cbn [step]. unfold openFile at 1.
  rewrite Hroot. clear Hroot. destruct w as [? ? ? ? reg ? ? ? ? ? ? ? ?].
  simpl in Hh, Hs. subst.
  destruct reg; eexists; (split; [lazy; reflexivity|]); split; reflexivity.
Qed.

End Engine.

(** ** Substring search *)

Lemma startsWith_prefix (pat s : jsstring) :
  startsWith pat s = true ↔ pat `prefix_of` s.
Proof.
  revert s. induction pat as [|p pat IH]; intros [|c s]; simpl.
  - split; [intros _; apply prefix_nil | done].
  - split; [intros _; apply prefix_nil | done].
  - split; [done | intros H; by apply prefix_nil_not in H].
  - rewrite andb_true_iff, N.eqb_eq, IH. split.
    + intros [-> H]. by apply prefix_cons.
    + intros H. split; [by apply prefix_cons_inv_1 in H | by apply prefix_cons_inv_2 in H].
Qed.

Lemma startsWith_false (pat s : jsstring) :
  startsWith pat s = false ↔ ¬ pat `prefix_of` s.
Proof. rewrite <- startsWith_prefix. by destruct (startsWith pat s). Qed.

Lemma indexOf_first_at (pat s : jsstring) (i : nat) :
  indexOf pat s = Some i ↔ first_at pat s i.
Proof.
  revert i. induction s as [|c s IH]; intros i.
  - simpl. destruct (startsWith pat []) eqn:E.
    + split.
      * intros [= <-]. split; [by apply startsWith_prefix | lia].
      * intros [_ H]. destruct i as [|i]; [done|].
        exfalso. apply (H 0); [lia | by apply startsWith_prefix].
    + split; [done|]. intros [H _]. apply startsWith_false in E.
      destruct E. by rewrite drop_nil in H.
  - cbn [indexOf]. destruct (startsWith pat (c :: s)) eqn:E.
    + split.
      * intros [= <-]. split; [by apply startsWith_prefix | lia].
      * intros [_ H]. destruct i as [|i]; [done|].
        exfalso. apply (H 0); [lia | by apply startsWith_prefix].
    + apply startsWith_false in E. split.
      * destruct (indexOf pat s) as [i'|] eqn:E'; [|done].
        intros [= <-]. destruct (proj1 (IH i') eq_refl) as [H1 H2]. split; [done|].
        intros [|j] Hj; [done|]. apply H2. lia.
      * intros [H1 H2]. destruct i as [|i]; [done|].
        assert (first_at pat s i) as Hf.
        { split; [done|]. intros j Hj. apply (H2 (S j)). lia. }
        apply IH in Hf. by rewrite Hf.
Qed.

Lemma indexOf_unfold (pat s : jsstring) :
  indexOf pat s =
  if startsWith pat s then Some 0
  else match s with
       | [] => None
       | _ :: s' => S <$> indexOf pat s'
       end.
Proof. by destruct s. Qed.

Lemma indexOf_app (pat pre suf : jsstring) :
  is_Some (indexOf pat (pre ++ pat ++ suf)).
Proof.
  induction pre as [|c pre IH].
  - assert (startsWith pat (pat ++ suf) = true) as H
      by (apply startsWith_prefix; by exists suf).
    rewrite indexOf_unfold. simpl. rewrite H. by eexists.
  - change ((c :: pre) ++ pat ++ suf) with (c :: (pre ++ pat ++ suf)).
    cbn [indexOf]. destruct (startsWith pat _); [by eexists|].
    destruct IH as [i ->]. by eexists.
Qed.

Lemma includes_contains (pat s : jsstring) :
  includes pat s = true ↔ contains pat s.
Proof.
  unfold includes, contains. split.
  - destruct (indexOf pat s) as [i|] eqn:E; [intros _|done].
    apply indexOf_first_at in E as [[k Hk] _].
    exists (take i s), k. by rewrite <- Hk, take_drop.
  - intros (pre & suf & ->). by destruct (indexOf_app pat pre suf) as [i ->].
Qed.

Lemma includes_false (pat s : jsstring) :
  includes pat s = false ↔ ¬ contains pat s.
Proof. rewrite <- includes_contains. by destruct (includes pat s). Qed.

Lemma first_at_split (pat s : jsstring) (i : nat) :
  first_at pat s i → drop i s = pat ++ drop (i + length pat) s.
Proof.
  intros [[k Hk] _]. rewrite <- drop_drop, Hk. by rewrite drop_app_length.
Qed.

Lemma first_at_unique (pat s : jsstring) (i j : nat) :
  first_at pat s i → first_at pat s j → i = j.
Proof.
  intros [Hi Hi'] [Hj Hj'].
  destruct (decide (i < j)) as [H|H]; [by destruct (Hj' i H)|].
  destruct (decide (j < i)) as [H'|H']; [by destruct (Hi' j H')|]. lia.
Qed.

(** ** Replacement text without [$] *)

Lemma getSubstitution_plain (matched before after templ : jsstring) :
  DOLLAR ∉ templ → getSubstitution matched before after templ = templ.
Proof.
  induction templ as [|c rest IH]; [done|]. intros H.
  apply not_elem_of_cons in H as [Hc Hrest]. cbn [getSubstitution].
  destruct (c =? DOLLAR)%N eqn:E.
  - apply N.eqb_eq in E. congruence.
  - by rewrite IH.
Qed.

Lemma digits_range (u : Decimal.uint) :
  Forall (λ c, (48 ≤ c ≤ 57)%N) (digits u).
Proof. induction u; simpl; constructor; (lia || done). Qed.

Lemma Number_toString_range (n : N) (c : N) :
  c ∈ Number_toString n → (48 ≤ c ≤ 57)%N.
Proof.
  intros H. pose proof (digits_range (N.to_uint n)) as HF.
  rewrite Forall_forall in HF. by apply HF.
Qed.

Ltac in_literal H :=
  vm_compute in H;
  repeat (apply elem_of_cons in H as [H|H]; [discriminate H|]);
  by apply elem_of_nil in H.

Lemma scriptElement_avoids (port : N) (c : N) :
  c ∈ [DOLLAR; LF; 102%N] →
  c ∉ lit "<script src=" ++ [QUOTE] ++ lit "http://127.0.0.1:"
        ++ Number_toString port.
Proof.
  intros Hc H.
  assert (c ∉ Number_toString port) as Hn.
  { intros Hn%Number_toString_range.
    repeat (apply elem_of_cons in Hc as [->|Hc]; [unfold DOLLAR, LF in Hn; lia|]).
    by apply elem_of_nil in Hc. }
  repeat (apply elem_of_app in H as [H|H]); try done;
    repeat (apply elem_of_cons in Hc as [->|Hc]; [in_literal H|]);
    by apply elem_of_nil in Hc.
Qed.

Lemma scriptTag_plain (port : N) (close : jsstring) :
  DOLLAR ∉ close → DOLLAR ∉ scriptTag port ++ close.
Proof.
  intros Hc H. unfold scriptTag, scriptElement in H.
  pose proof (scriptElement_avoids port DOLLAR) as Ha.
  repeat (apply elem_of_app in H as [H|H]); try done; try in_literal H.
  all: apply Ha; [set_solver|]; set_solver.
Qed.

Lemma replace_first (s pat repl : jsstring) (i : nat) :
  first_at pat s i → DOLLAR ∉ repl ++ pat →
  replace s pat (repl ++ pat) = take i s ++ repl ++ drop i s.
Proof.
  intros Hf Hd. unfold replace.
  pose proof Hf as Hi. apply indexOf_first_at in Hi. rewrite Hi.
  cbn zeta. rewrite getSubstitution_plain by done.
  rewrite (first_at_split pat s i Hf). by rewrite <- !app_assoc.
Qed.

(** ** Counting occurrences *)

Lemma startsWith_sep (pat a b : jsstring) (sep : N) :
  sep ∉ pat → startsWith pat (a ++ sep :: b) = startsWith pat a.
Proof.
  revert a. induction pat as [|p pat IH]; intros [|c a] H; simpl; try done.
  - apply not_elem_of_cons in H as [H _].
    destruct (p =? sep)%N eqn:E; [|done]. apply N.eqb_eq in E. congruence.
  - apply not_elem_of_cons in H as [_ H]. by rewrite IH.
Qed.

Lemma occurrences_sep (pat a b : jsstring) (sep : N) :
  pat ≠ [] → sep ∉ pat →
  occurrences pat (a ++ sep :: b) = occurrences pat a + occurrences pat b.
Proof.
  intros Hne Hsep. induction a as [|c a IH].
  - cbn [app occurrences]. rewrite <- (app_nil_l (sep :: b)) at 1.
    rewrite startsWith_sep by done. by destruct pat.
  - change ((c :: a) ++ sep :: b) with (c :: (a ++ sep :: b)).
    cbn [occurrences]. rewrite IH.
    change (c :: (a ++ sep :: b)) with ((c :: a) ++ sep :: b).
    rewrite startsWith_sep by done. lia.
Qed.

Lemma occurrences_skip (f : N) (pat a b : jsstring) :
  f ∉ a → occurrences (f :: pat) (a ++ b) = occurrences (f :: pat) b.
Proof.
  induction a as [|c a IH]; [done|]. intros H.
  apply not_elem_of_cons in H as [Hc Ha].
  change ((c :: a) ++ b) with (c :: (a ++ b)). cbn [occurrences startsWith].
  destruct (f =? c)%N eqn:E; [apply N.eqb_eq in E; congruence|].
  by rewrite IH.
Qed.

Lemma occurrences_none (pat s : jsstring) :
  includes pat s = false → occurrences pat s = 0.
Proof.
  unfold includes. induction s as [|c s IH]; [done|].
  rewrite indexOf_unfold. cbn [occurrences].
  destruct (startsWith pat (c :: s)); [done|].
  destruct (indexOf pat s); [done|]. intros _. by rewrite IH.
Qed.

Lemma occurrences_app_l (pat a b : jsstring) :
  occurrences pat a ≤ occurrences pat (a ++ b).
Proof.
  induction a as [|c a IH]; [simpl; lia|].
  change ((c :: a) ++ b) with (c :: (a ++ b)). cbn [occurrences].
  destruct (startsWith pat (c :: a)) eqn:E; [|lia].
  apply startsWith_prefix in E.
  assert (startsWith pat (c :: (a ++ b)) = true) as ->; [|lia].
  apply startsWith_prefix. by apply (prefix_app_r _ (c :: a) b).
Qed.

Lemma occurrences_app_r (pat a b : jsstring) :
  occurrences pat b ≤ occurrences pat (a ++ b).
Proof. induction a as [|c a IH]; simpl; lia. Qed.

Lemma occurrences_scriptElement (port : N) :
  occurrences BOOTSTRAP (scriptElement port) = 1.
Proof.
  unfold scriptElement.
  change BOOTSTRAP with (102%N :: lit "lashsync.js").
  rewrite occurrences_skip; [by vm_compute|].
  apply scriptElement_avoids. set_solver.
Qed.

Lemma occurrences_inserted (html : jsstring) (port : N) (i : nat) :
  includes BOOTSTRAP html = false →
  occurrences BOOTSTRAP (take i html ++ scriptTag port ++ drop i html) = 1.
Proof.
  intros H%occurrences_none. unfold scriptTag.
  pose proof (occurrences_app_l BOOTSTRAP (take i html) (drop i html)) as Hl.
  pose proof (occurrences_app_r BOOTSTRAP (take i html) (drop i html)) as Hr.
  rewrite take_drop, H in Hl, Hr.
  assert (BOOTSTRAP ≠ [] ∧ LF ∉ BOOTSTRAP) as [Hne Hlf].
  { split; [done|]. intros Hin. in_literal Hin. }
  change (take i html ++ ([LF] ++ scriptElement port ++ [LF]) ++ drop i html)
    with (take i html ++ LF :: ((scriptElement port ++ [LF]) ++ drop i html)).
  rewrite occurrences_sep by done.
  rewrite <- app_assoc. cbn [app]. rewrite occurrences_sep by done.
  rewrite occurrences_scriptElement. lia.
Qed.

Lemma includes_occurrences (pat s : jsstring) :
  0 < occurrences pat s → includes pat s = true.
Proof.
  intros H. destruct (includes pat s) eqn:E; [done|].
  apply occurrences_none in E. lia.
Qed.

(** ** [injectScript] *)

Lemma injectScript_at (html close : jsstring) (port : N) (i : nat) :
  first_at close html i → DOLLAR ∉ close →
  replace html close (scriptTag port ++ close)
  = take i html ++ scriptTag port ++ drop i html.
Proof.
  intros Hf Hd. apply replace_first; [done|]. by apply scriptTag_plain.
Qed.

Lemma CLOSE_HEAD_plain : DOLLAR ∉ CLOSE_HEAD.
Proof. intros H. in_literal H. Qed.

Lemma CLOSE_BODY_plain : DOLLAR ∉ CLOSE_BODY.
Proof. intros H. in_literal H. Qed.

Lemma includes_first_at (pat s : jsstring) :
  includes pat s = true → ∃ i, first_at pat s i.
Proof.
  unfold includes. destruct (indexOf pat s) as [i|] eqn:E; [|done].
  intros _. exists i. by apply indexOf_first_at.
Qed.

Lemma first_at_includes (pat s : jsstring) (i : nat) :
  first_at pat s i → includes pat s = true.
Proof. intros H%indexOf_first_at. unfold includes. by rewrite H. Qed.

Lemma injectScript_form (html : jsstring) (port : N) :
  includes BOOTSTRAP html = false →
  ∃ i, injectScript html port = take i html ++ scriptTag port ++ drop i html.
Proof.
  intros H. unfold injectScript. rewrite H. cbn zeta.
  destruct (includes CLOSE_HEAD html) eqn:Eh.
  { apply includes_first_at in Eh as [i Hi]. exists i.
    apply injectScript_at; [done | apply CLOSE_HEAD_plain]. }
  destruct (includes CLOSE_BODY html) eqn:Eb.
  { apply includes_first_at in Eb as [i Hi]. exists i.
    apply injectScript_at; [done | apply CLOSE_BODY_plain]. }
  exists (length html). by rewrite firstn_all, drop_all, app_nil_r.
Qed.

Lemma injectScript_present (html : jsstring) (port : N) :
  includes BOOTSTRAP html = true → injectScript html port = html.
Proof. intros H. unfold injectScript. by rewrite H. Qed.

(** C10: the bootstrap check is a substring test.  Whatever surrounds the
    twelve characters, a string in which they occur is returned as it is. *)
Theorem injectScript_substring_test (pre suf : jsstring) (port : N) :
  injectScript (pre ++ BOOTSTRAP ++ suf) port = pre ++ BOOTSTRAP ++ suf.
Proof.
  apply injectScript_present, includes_contains. by exists pre, suf.
Qed.

(** C2: [injectScript] is idempotent.  A string that contains the bootstrap
    file name is returned unchanged; for any other string the result contains
    the name exactly once and is a fixed point of [injectScript], for every
    port. *)
Theorem injectScript_idempotent (html : jsstring) (port port' : N) :
  (contains BOOTSTRAP html → injectScript html port = html) ∧
  (¬ contains BOOTSTRAP html →
     occurrences BOOTSTRAP (injectScript html port) = 1 ∧
     injectScript (injectScript html port) port' = injectScript html port).
Proof.
  split.
  - intros H%includes_contains. by apply injectScript_present.
  - intros H%includes_false.
    destruct (injectScript_form html port H) as [i Hi].
    pose proof (occurrences_inserted html port i H) as Hocc.
    rewrite <- Hi in Hocc. split; [done|].
    apply injectScript_present, includes_occurrences. lia.
Qed.

(** C6: the fallback chain of [injectScript].  When the bootstrap name does
    not occur, the tag goes in front of the first ["</head>"]; without one, in
    front of the first ["</body>"]; without either, at the end.  The result
    is always the input with the one tag added. *)
Theorem injectScript_placement (html : jsstring) (port : N) :
  ¬ contains BOOTSTRAP html →
  (∀ i, first_at CLOSE_HEAD html i →
        injectScript html port = take i html ++ scriptTag port ++ drop i html) ∧
  (¬ contains CLOSE_HEAD html → ∀ i, first_at CLOSE_BODY html i →
        injectScript html port = take i html ++ scriptTag port ++ drop i html) ∧
  (¬ contains CLOSE_HEAD html → ¬ contains CLOSE_BODY html →
        injectScript html port = html ++ scriptTag port) ∧
  length (injectScript html port) = length html + length (scriptTag port).
Proof.
  intros H%includes_false. repeat split.
  - intros i Hi. unfold injectScript. rewrite H. cbn zeta.
    rewrite (first_at_includes _ _ _ Hi).
    apply injectScript_at; [done | apply CLOSE_HEAD_plain].
  - intros Hh%includes_false i Hi. unfold injectScript. rewrite H, Hh. cbn zeta.
    rewrite (first_at_includes _ _ _ Hi).
    apply injectScript_at; [done | apply CLOSE_BODY_plain].
  - intros Hh%includes_false Hb%includes_false.
    unfold injectScript. by rewrite H, Hh, Hb.
  - destruct (injectScript_form html port H) as [i ->].
    rewrite !length_app, length_take, length_drop. lia.
Qed.

(** ** Port probe *)

Lemma getFreePort_busy (bindable : N → bool) (fuel : nat) (start : N) :
  bindable start = false →
  getFreePort bindable (S fuel) start = getFreePort bindable fuel (start + 1)%N.
Proof. intros H. simpl. by rewrite H. Qed.

Lemma getFreePort_free (bindable : N → bool) (fuel : nat) (start : N) :
  bindable start = true → getFreePort bindable (S fuel) start = Some start.
Proof. intros H. simpl. by rewrite H. Qed.

(** The probe climbs over [n] busy ports with [n] failed attempts. *)
Lemma getFreePort_climb (bindable : N → bool) (n fuel : nat) (start : N) :
  (∀ q, (start ≤ q < start + N.of_nat n)%N → bindable q = false) →
  getFreePort bindable (n + fuel) start
  = getFreePort bindable fuel (start + N.of_nat n)%N.
Proof.
  revert start. induction n as [|n IH]; intros start H.
  - simpl. f_equal. lia.
  - change (S n + fuel) with (S (n + fuel)).
    rewrite getFreePort_busy by (apply H; lia).
    rewrite IH by (intros q Hq; apply H; lia). f_equal. lia.
Qed.

Lemma getFreePort_exhausted (bindable : N → bool) (fuel : nat) (start : N) :
  (∀ q, (start ≤ q < start + N.of_nat fuel)%N → bindable q = false) →
  getFreePort bindable fuel start = None.
Proof.
  intros H. rewrite <- (Nat.add_0_r fuel). by rewrite getFreePort_climb.
Qed.

(** Below a free port there is a smallest free port. *)
Lemma least_bindable (bindable : N → bool) (n : nat) (start : N) :
  bindable (start + N.of_nat n)%N = true →
  ∃ p, (start ≤ p ≤ start + N.of_nat n)%N ∧ bindable p = true ∧
       ∀ r, (start ≤ r < p)%N → bindable r = false.
Proof.
  revert start. induction n as [|n IH]; intros start H.
  - exists start. rewrite N.add_0_r in H. repeat split; (lia || done).
  - destruct (bindable start) eqn:E.
    + exists start. repeat split; (lia || done).
    + destruct (IH (start + 1)%N) as (p & Hp & Hb & Hl).
      { rewrite <- H. f_equal. lia. }
      exists p. repeat split; [lia | lia | done |].
      intros r Hr. destruct (decide (r = start)) as [->|Hne]; [done|].
      apply Hl. lia.
Qed.

(** C8: port allocation.  Whenever some port at or above [preferred] can be
    bound, the probe returns the smallest such port [p], after exactly
    [p - preferred] failed attempts, however many that is: [preferred] itself
    when it is free, and otherwise a different port that is free. *)
Theorem getFreePort_smallest (bindable : N → bool) (preferred q : N) :
  (preferred ≤ q)%N → bindable q = true →
  ∃ p, (preferred ≤ p ≤ q)%N ∧ bindable p = true ∧
       (∀ r, (preferred ≤ r < p)%N → bindable r = false) ∧
       (∀ fuel, N.to_nat (p - preferred) < fuel →
                getFreePort bindable fuel preferred = Some p) ∧
       (∀ fuel, fuel ≤ N.to_nat (p - preferred) →
                getFreePort bindable fuel preferred = None) ∧
       (bindable preferred = true → p = preferred) ∧
       (bindable preferred = false →
          p ≠ preferred ∧
          ∀ fuel, getFreePort bindable (S fuel) preferred
                  = getFreePort bindable fuel (preferred + 1)%N).
Proof.
  intros Hq Hb.
  destruct (least_bindable bindable (N.to_nat (q - preferred)) preferred)
    as (p & Hp & Hpb & Hl).
  { rewrite <- Hb. f_equal. lia. }
  exists p. repeat split; try done; try lia.
  - intros fuel Hf.
    replace fuel with (N.to_nat (p - preferred) + S (fuel - S (N.to_nat (p - preferred))))
      by lia.
    rewrite getFreePort_climb by (intros r Hr; apply Hl; lia).
    replace (preferred + N.of_nat (N.to_nat (p - preferred)))%N with p by lia.
    by apply getFreePort_free.
  - intros fuel Hf. apply getFreePort_exhausted. intros r Hr. apply Hl. lia.
  - intros Hfree. destruct (decide (p = preferred)) as [|Hne]; [done|].
    rewrite Hl in Hfree by lia. done.
  - intros -> . congruence.
  - intros fuel. by apply getFreePort_busy.
Qed.

(** ** The file server, the opened path and the client *)

Section ServerFacts.

Variable extname : jsstring → jsstring.
Variable toLowerCase : jsstring → jsstring.
Variable pathJoin : jsstring → jsstring → jsstring.
Variable pathRelative : jsstring → jsstring → jsstring.
Variable CLIENT_SCRIPT : jsstring.

Local Abbreviation mime := (mimeType extname toLowerCase).
Local Abbreviation html_path := (isHtmlPath extname toLowerCase).
Local Abbreviation is_watched := (watched extname toLowerCase).
Local Abbreviation handle := (handleRequest extname toLowerCase pathJoin CLIENT_SCRIPT).
Local Abbreviation choose := (chooseOpenPath extname toLowerCase pathRelative).
Local Abbreviation on_message := (onMessage toLowerCase).

Lemma mime_of_extension (ext : jsstring) :
  let m := default OCTET_STREAM
             ((list_to_map MIME_TABLE : gmap jsstring jsstring) !! ext) in
  includes (lit "text") m = bool_decide (ext ∈ WATCHED) ∧
  startsWith (lit "text/html") m = bool_decide (ext ∈ [lit ".html"; lit ".htm"]).
Proof.
  cbn zeta.
  destruct ((list_to_map MIME_TABLE : gmap jsstring jsstring) !! ext) as [m|] eqn:E.
  - apply elem_of_list_to_map_2 in E. unfold MIME_TABLE in E.
    repeat (apply elem_of_cons in E as [E|E];
            [injection E as -> ->; vm_compute; done|]).
    by apply elem_of_nil in E.
  - split.
    + transitivity false; [by vm_compute|]. symmetry.
      apply bool_decide_eq_false. unfold WATCHED. intros Hin.
      repeat (apply elem_of_cons in Hin as [->|Hin]; [vm_compute in E; discriminate|]).
      by apply elem_of_nil in Hin.
    + transitivity false; [by vm_compute|]. symmetry.
      apply bool_decide_eq_false. intros Hin.
      repeat (apply elem_of_cons in Hin as [->|Hin]; [vm_compute in E; discriminate|]).
      by apply elem_of_nil in Hin.
Qed.

Lemma mime_kinds (name : jsstring) :
  includes (lit "text") (mime name) = is_watched name ∧
  startsWith (lit "text/html") (mime name) = html_path name.
Proof. apply mime_of_extension. Qed.

(** X9: the files the server reads as text are exactly the files whose edits
    are broadcast, and the files it treats as HTML are exactly those with the
    extension [.html] or [.htm], in any letter case. *)
Theorem text_mime_iff_watched (name : jsstring) :
  includes (lit "text") (mime name) = is_watched name ∧
  startsWith (lit "text/html") (mime name) = html_path name.
Proof. apply mime_kinds. Qed.

Lemma handleRequest_cases (root : jsstring) (port : N)
    (disk : gmap jsstring (option jsstring)) (url : option jsstring) :
  let file := pathJoin root (requestPath url) in
  let ok := λ b, Responded {| status := 200;
                              headers := [(lit "Content-Type", mime file); NO_STORE];
                              body := b |} in
  handle root port disk url =
  if bool_decide (requestPath url = RESERVED) then
    Responded {| status := 200;
                 headers := [(lit "Content-Type", lit "application/javascript");
                             NO_STORE];
                 body := Text CLIENT_SCRIPT |}
  else
    match disk !! file with
    | None => Responded {| status := 404;
                           headers := [(lit "Content-Type", lit "text/plain")];
                           body := Text (lit "404 - Not found") |}
    | Some content =>
        if html_path file then
          match content with
          | Some html => ok (Text (injectScript html port))
          | None => Responded {| status := 500; headers := [];
                                 body := Text (lit "Server error") |}
          end
        else if is_watched file then
          match content with
          | Some text => ok (Text text)
          | None => Threw
          end
        else ok (Stream file)
    end.
Proof.
  cbn zeta. unfold handleRequest. cbn zeta.
  destruct (mime_kinds (pathJoin root (requestPath url))) as [-> ->].
  done.
Qed.


(** X11: every answer of the handler has status 200, 404 or 500, and the answers
    with status 200 are exactly those that forbid caching. *)
Theorem response_status_and_cache (root : jsstring) (port : N)
    (disk : gmap jsstring (option jsstring)) (url : option jsstring) (r : Response) :
  handle root port disk url = Responded r →
  (status r = 200 ∨ status r = 404 ∨ status r = 500) ∧
  (status r = 200 ↔ NO_STORE ∈ headers r).
Proof.
  clear pathRelative. rewrite handleRequest_cases. cbn zeta.
  assert (NO_STORE ∉ [(lit "Content-Type", lit "text/plain")]) as Hplain.
  { intros H. apply list_elem_of_singleton in H. by vm_compute in H. }
  intros H.
  repeat match type of H with
         | context [match ?x with _ => _ end] => destruct x
         end;
    try done; injection H as <-; simpl;
    (split; [tauto|]);
    (split; [first [done | intros _; right; left] | try done]).
  all: first [by intros ?%Hplain | by intros ?%elem_of_nil].
Qed.

(** X12: every HTML page the server hands out refers to the client script: the
    body is the file itself when it already names the script, and otherwise
    the file with the name occurring exactly once. *)
Theorem html_response_has_bootstrap (root : jsstring) (port : N)
    (disk : gmap jsstring (option jsstring)) (url : option jsstring) (html : jsstring) :
  let file := pathJoin root (requestPath url) in
  requestPath url ≠ RESERVED → disk !! file = Some (Some html) →
  html_path file = true →
  ∃ b, handle root port disk url
       = Responded {| status := 200;
                      headers := [(lit "Content-Type", lit "text/html; charset=utf-8");
                                  NO_STORE];
                      body := Text b |} ∧
       includes BOOTSTRAP b = true ∧
       (includes BOOTSTRAP html = true → b = html) ∧
       (includes BOOTSTRAP html = false → occurrences BOOTSTRAP b = 1).
Proof.
  cbn zeta. intros Hres Hdisk Hhtml. exists (injectScript html port).
  assert (mime (pathJoin root (requestPath url)) = lit "text/html; charset=utf-8") as Hm.
  { unfold isHtmlPath in Hhtml. apply bool_decide_eq_true in Hhtml.
    unfold mimeType. cbn zeta.
    repeat (apply elem_of_cons in Hhtml as [->|Hhtml]; [by vm_compute|]).
    by apply elem_of_nil in Hhtml. }
  split.
  { rewrite handleRequest_cases. cbn zeta.
    rewrite bool_decide_false by done. by rewrite Hdisk, Hhtml, Hm. }
  assert (includes BOOTSTRAP html = false →
          occurrences BOOTSTRAP (injectScript html port) = 1) as Hone.
  { intros H. destruct (injectScript_form html port H) as [i ->].
    by apply occurrences_inserted. }
  split; [|split; [by apply injectScript_present | done]].
  destruct (includes BOOTSTRAP html) eqn:E.
  - by rewrite injectScript_present.
  - apply includes_occurrences. rewrite Hone by done. lia.
Qed.

(** X13: a file that exists but cannot be read: an HTML file gives a 500 with no
    header, another watched file makes the handler throw, and for any other
    file the handler has already answered 200 when the stream fails. *)
Theorem read_failure (root : jsstring) (port : N)
    (disk : gmap jsstring (option jsstring)) (url : option jsstring) :
  let file := pathJoin root (requestPath url) in
  requestPath url ≠ RESERVED → disk !! file = Some None →
  handle root port disk url =
  if html_path file then
    Responded {| status := 500; headers := []; body := Text (lit "Server error") |}
  else if is_watched file then Threw
  else Responded {| status := 200;
                    headers := [(lit "Content-Type", mime file); NO_STORE];
                    body := Stream file |}.
Proof.
  cbn zeta. intros Hres Hdisk. rewrite handleRequest_cases. cbn zeta.
  rewrite bool_decide_false by done. by rewrite Hdisk.
Qed.

Lemma slashes_no_backslash (s : jsstring) : BACKSLASH ∉ slashes s.
Proof.
  unfold slashes. intros (c & Hc & _)%list_elem_of_fmap.
  destruct (c =? BACKSLASH)%N eqn:E; [done|]. apply N.eqb_neq in E. congruence.
Qed.

Lemma INDEX_HTML_no_backslash : BACKSLASH ∉ INDEX_HTML.
Proof. intros H. in_literal H. Qed.

Lemma choose_active (rt : jsstring) (active : option jsstring) :
  let r := match active with
           | Some (c :: a) =>
               if startsWith rt (c :: a) then
                 if html_path (c :: a)
                 then slashes (pathRelative rt (c :: a))
                 else INDEX_HTML
               else INDEX_HTML
           | _ => INDEX_HTML
           end in
  (BACKSLASH ∉ r) ∧
  (r = INDEX_HTML ∨
   ∃ p, active = Some p ∧ html_path p = true ∧ startsWith rt p = true ∧
        r = slashes (pathRelative rt p)).
Proof.
  cbn zeta. pose proof INDEX_HTML_no_backslash as Hidx.
  destruct active as [[|c a]|]; [by split; [|left] | | by split; [|left]].
  destruct (startsWith rt (c :: a)) eqn:Ep; [|by split; [|left]].
  destruct (html_path (c :: a)) eqn:Eh; [|by split; [|left]].
  split; [apply slashes_no_backslash|]. right. by exists (c :: a).
Qed.


Lemma endsWith_suffix (suffix s : jsstring) :
  endsWith suffix s = true ↔ suffix `suffix_of` s.
Proof.
  unfold endsWith. rewrite startsWith_prefix. symmetry.
  apply suffix_prefix_reverse.
Qed.

Lemma endsWith_last (suffix s : jsstring) (c : N) :
  endsWith suffix s = true → last suffix = Some c → last s = Some c.
Proof.
  intros [k ->]%endsWith_suffix H. by rewrite last_app, H.
Qed.

(** X15: from the editor to the page: when the gate is open the one broadcast
    carries the file name and the whole text, and the browser hands that
    text to the style sheet for a name ending in [.css] and to the DOM patch
    for a name ending in [.html]; for a name ending in [.htm], which the
    server does watch, the browser does nothing. *)
Theorem broadcast_reaches_page (w : World) (doc : TextDocument) :
  gate_open extname toLowerCase w doc = true →
  ∃ payload recipients,
    broadcastIfAllowed extname toLowerCase w doc = [Broadcast payload recipients] ∧
    (endsWith (lit ".css") (toLowerCase (fileName doc)) = true →
       on_message (received payload) = ApplyCSS (getText doc)) ∧
    (endsWith (lit ".html") (toLowerCase (fileName doc)) = true →
       on_message (received payload) = PatchHTML (getText doc)) ∧
    (endsWith (lit ".htm") (toLowerCase (fileName doc)) = true →
       on_message (received payload) = NoAction).
Proof.
  intros Hgate. rewrite broadcastIfAllowed_gate, Hgate.
  eexists _, _. split; [reflexivity|]. unfold onMessage, received.
  cbn [msgFile msgContent file content default from_option id].
  set (name := toLowerCase (fileName doc)).
  split; [|split].
  - by intros ->.
  - intros H. rewrite H.
    destruct (endsWith (lit ".css") name) eqn:E; [|done].
    apply (endsWith_last _ _ 108%N) in H; [|done].
    apply (endsWith_last _ _ 115%N) in E; [|done]. congruence.
  - intros H.
    destruct (endsWith (lit ".css") name) eqn:E.
    { apply (endsWith_last _ _ 109%N) in H; [|done].
      apply (endsWith_last _ _ 115%N) in E; [|done]. congruence. }
    destruct (endsWith (lit ".html") name) eqn:E'; [|done].
    apply (endsWith_last _ _ 109%N) in H; [|done].
    apply (endsWith_last _ _ 108%N) in E'; [|done]. congruence.
Qed.

End ServerFacts.


(** ** Examples *)

Example injectScript_head :
  injectScript (lit "<html><head></head><body></body></html>") 9090 =
  lit "<html><head>" ++ scriptTag 9090 ++ lit "</head><body></body></html>".
Proof. vm_compute. reflexivity. Qed.

Example injectScript_body :
  injectScript (lit "<body></body>") 9090 =
  lit "<body>" ++ scriptTag 9090 ++ lit "</body>".
Proof. vm_compute. reflexivity. Qed.

Example injectScript_plain :
  injectScript (lit "plain") 9090 = lit "plain" ++ scriptTag 9090.
Proof. vm_compute. reflexivity. Qed.

(** The tags are matched as they are spelt in the source. *)
Example injectScript_upper_case :
  injectScript (lit "<HEAD></HEAD>") 9090 = lit "<HEAD></HEAD>" ++ scriptTag 9090.
Proof. vm_compute. reflexivity. Qed.

Example injectScript_comment_only :
  injectScript (lit "<html><head><!-- flashsync.js --></head></html>") 9090 =
  lit "<html><head><!-- flashsync.js --></head></html>".
Proof. vm_compute. reflexivity. Qed.

Example posix_extname_examples :
  posix_extname (lit "/site/index.html") = lit ".html" ∧
  posix_extname (lit "/site/INDEX.HTM") = lit ".HTM" ∧
  posix_extname (lit "/site/a.b/style.css") = lit ".css" ∧
  posix_extname (lit "/site/.bashrc") = [] ∧
  posix_extname (lit "/site/notes") = [] ∧
  posix_extname (lit "/site/dir.d/") = lit ".d" ∧
  posix_extname (lit "..") = [] ∧
  posix_extname (lit "a.") = lit ".".
Proof. vm_compute. repeat split. Qed.

Example watched_examples :
  watched posix_extname ascii_toLowerCase (lit "/site/INDEX.HTM") = true ∧
  watched posix_extname ascii_toLowerCase (lit "/site/style.Css") = true ∧
  watched posix_extname ascii_toLowerCase (lit "/site/notes.txt") = false ∧
  watched posix_extname ascii_toLowerCase (lit "/site/app.js") = false.
Proof. vm_compute. repeat split. Qed.

Example go_live_run :
  run posix_extname ascii_toLowerCase initial go_live
  = Some (live_world,
          [ProbePort 9090%N; CreateListener 9090%N; CreateHub;
           StartReturned (Some 9090%N)]).
Proof. vm_compute. reflexivity. Qed.

Example pause_run :
  run posix_extname ascii_toLowerCase live_world [CmdToggle None]
  = Some (paused_world, []).
Proof. vm_compute. reflexivity. Qed.

(** In a replacement text [$&] stands for the match and [$$] for a dollar. *)
Example replace_dollar :
  replace (lit "abc") (lit "b") (lit "[$&$$]") = lit "a[b$]c".
Proof. vm_compute. reflexivity. Qed.

(** ** The theorems at concrete inputs *)

Lemma send_only_while_editing_witness :
  ∃ w' out,
    run posix_extname ascii_toLowerCase live_world
        [DidChange index_uri (lit "<p>two</p>"); CmdToggle None; Tick 200%N;
         TimerFire 0]
    = Some (w', out) ∧
    serverState w' ≠ running_editing ∧
    ∀ b, b ∈ out → is_broadcast b = false.
Proof.
  apply (proj2 (send_only_while_editing posix_extname ascii_toLowerCase)
               live_world index_uri index_doc (lit "<p>two</p>")
               (CmdToggle None) None 200%N).
  - reflexivity.
  - vm_compute. reflexivity.
  - reflexivity.
  - left. reflexivity.
  - vm_compute. discriminate.
Defined.

Lemma injectScript_idempotent_witness :
  occurrences BOOTSTRAP (injectScript (lit "<body></body>") 9090) = 1 ∧
  injectScript (injectScript (lit "<body></body>") 9090) 8080
  = injectScript (lit "<body></body>") 9090.
Proof.
  apply (proj2 (injectScript_idempotent (lit "<body></body>") 9090 8080)).
  apply includes_false. vm_compute. reflexivity.
Defined.

(** One edit of a text file while editing is on, and one edit of the page
    while editing is paused: the timer fires and nothing is broadcast. *)
Lemma debounce_coalescing_counterexample :
  snd <$> run posix_extname ascii_toLowerCase live_world
              [DidChange notes_uri (lit "done"); Tick 140%N; TimerFire 0]
  = Some [] ∧
  snd <$> run posix_extname ascii_toLowerCase paused_world
              [DidChange index_uri (lit "<p>two</p>"); Tick 140%N; TimerFire 0]
  = Some [].
Proof. split; vm_compute; reflexivity. Qed.

Lemma debounce_coalescing_witness :
  ∃ w1 w2 id,
    run posix_extname ascii_toLowerCase live_world
        (burst index_uri (lit "<p>t</p>")
               [(50%N, lit "<p>tw</p>"); (139%N, lit "<p>two</p>")])
    = Some (w1, []) ∧
    run posix_extname ascii_toLowerCase w1 [Tick 140%N; TimerFire id]
    = Some (w2, [Broadcast {| file := lit "/site/index.html";
                              content := lit "<p>two</p>" |} [1]]).
Proof.
  destruct (debounce_coalescing posix_extname ascii_toLowerCase
              live_world index_uri index_doc (lit "<p>t</p>")
              [(50%N, lit "<p>tw</p>"); (139%N, lit "<p>two</p>")] 140%N)
    as (w1 & w2 & id & H1 & _ & _ & _ & H2 & _).
  - exists go_live. eexists. vm_compute. reflexivity.
  - reflexivity.
  - vm_compute. reflexivity.
  - repeat constructor.
  - vm_compute. discriminate.
  - exists w1, w2, id. split; [exact H1 | exact H2].
Defined.

Lemma start_stop_idempotent_witness :
  startServer_enter (lit "/other") live_world
  = (live_world, [StartReturned (Some 9090%N)]).
Proof.
  apply (proj1 (start_stop_idempotent posix_extname ascii_toLowerCase)
               live_world (lit "/other")).
  vm_compute. eexists. reflexivity.
Defined.

Lemma injectScript_placement_witness :
  injectScript (lit "<html><head></head><body></body></html>") 9090
  = take 12 (lit "<html><head></head><body></body></html>")
    ++ scriptTag 9090
    ++ drop 12 (lit "<html><head></head><body></body></html>").
Proof.
  apply (proj1 (injectScript_placement
                  (lit "<html><head></head><body></body></html>") 9090
                  ltac:(apply includes_false; vm_compute; reflexivity))).
  apply indexOf_first_at. vm_compute. reflexivity.
Defined.

(** An edit and a save of a text file while editing is on, and of the page
    while editing is paused: nothing is broadcast, neither at once nor when
    the timer fires. *)
Lemma save_bypasses_debounce_counterexample :
  snd <$> run posix_extname ascii_toLowerCase live_world
              [DidChange notes_uri (lit "done"); DidSave notes_uri;
               Tick 140%N; TimerFire 0]
  = Some [] ∧
  snd <$> run posix_extname ascii_toLowerCase paused_world
              [DidChange index_uri (lit "<p>two</p>"); DidSave index_uri;
               Tick 140%N; TimerFire 0]
  = Some [].
Proof. split; vm_compute; reflexivity. Qed.

Lemma save_bypasses_debounce_witness :
  ∃ w2,
    run posix_extname ascii_toLowerCase live_world
        [DidChange index_uri (lit "<p>two</p>"); DidSave index_uri;
         Tick 140%N; TimerFire 0]
    = Some (w2, [Broadcast {| file := lit "/site/index.html";
                              content := lit "<p>two</p>" |} [1];
                 Broadcast {| file := lit "/site/index.html";
                              content := lit "<p>two</p>" |} [1]]).
Proof.
  destruct (save_bypasses_debounce posix_extname ascii_toLowerCase
              live_world index_uri index_doc (lit "<p>two</p>") 140%N)
    as (w1 & w2 & _ & _ & _ & _ & H).
  - reflexivity.
  - vm_compute. reflexivity.
  - vm_compute. discriminate.
  - exists w2. exact H.
Defined.

Lemma getFreePort_smallest_witness :
  ∃ p, (9090 ≤ p ≤ 9092)%N ∧
       (∀ fuel, N.to_nat (p - 9090) < fuel →
                getFreePort (λ q, negb (q <? 9092)%N) fuel 9090%N = Some p) ∧
       p ≠ 9090%N.
Proof.
  destruct (getFreePort_smallest (λ q, negb (q <? 9092)%N) 9090%N 9092%N)
    as (p & Hp & _ & _ & Hfuel & _ & _ & Hbusy).
  - vm_compute. discriminate.
  - reflexivity.
  - exists p. split; [exact Hp|]. split; [exact Hfuel|].
    apply Hbusy. reflexivity.
Defined.

Lemma unwatched_never_broadcast_witness :
  step posix_extname ascii_toLowerCase live_world (DidSave notes_uri)
  = Some (live_world, []).
Proof.
  assert (step posix_extname ascii_toLowerCase live_world (DidSave notes_uri)
          = Some (live_world,
                  broadcastIfAllowed posix_extname ascii_toLowerCase
                                     live_world notes_doc)) as Hstep
    by reflexivity.
  rewrite Hstep. apply (f_equal (λ o, Some (live_world, o))).
  apply (proj2 (unwatched_never_broadcast posix_extname ascii_toLowerCase)
               live_world notes_uri notes_doc (DidSave notes_uri) live_world).
  - vm_compute. reflexivity.
  - apply (bool_decide_unpack _). vm_compute. exact I.
  - right. left. reflexivity.
  - exact Hstep.
Defined.

(** ** The further theorems at concrete inputs *)

Lemma toggle_twice_witness :
  run posix_extname ascii_toLowerCase live_world [CmdToggle None; CmdToggle None]
  = Some (live_world, []).
Proof.
  apply (toggle_twice posix_extname ascii_toLowerCase live_world None None).
  vm_compute. discriminate.
Defined.

Lemma edit_while_paused_then_resumed_witness :
  ∃ w',
    run posix_extname ascii_toLowerCase paused_world
        [DidChange index_uri (lit "<p>two</p>"); CmdToggle None; Tick 140%N;
         TimerFire 0]
    = Some (w', [Broadcast {| file := lit "/site/index.html";
                              content := lit "<p>two</p>" |} [1]]).
Proof.
  destruct (edit_while_paused_then_resumed posix_extname ascii_toLowerCase
              paused_world index_uri index_doc (lit "<p>two</p>") None 140%N)
    as [w' H].
  - reflexivity.
  - vm_compute. reflexivity.
  - reflexivity.
  - vm_compute. discriminate.
  - exists w'. exact H.
Defined.

Lemma edit_keeps_other_timers_witness :
  ∃ w',
    step posix_extname ascii_toLowerCase
         (edit notes_uri notes_doc (lit "done") live_world)
         (DidChange index_uri (lit "<p>two</p>"))
    = Some (w', []) ∧
    debounceTimers w' !! notes_uri = Some 0.
Proof.
  destruct (edit_keeps_other_timers posix_extname ascii_toLowerCase
              (edit notes_uri notes_doc (lit "done") live_world)
              index_uri notes_uri index_doc (lit "<p>two</p>"))
    as (w' & Hstep & Hmap & _).
  - exists (go_live ++ [DidChange notes_uri (lit "done")]). eexists.
    vm_compute. reflexivity.
  - reflexivity.
  - vm_compute. reflexivity.
  - vm_compute. discriminate.
  - exists w'. split; [exact Hstep|]. rewrite Hmap. vm_compute. reflexivity.
Defined.

Lemma timer_fires_once_witness :
  step posix_extname ascii_toLowerCase
       (edit index_uri index_doc (lit "<p>three</p>")
          (fire 0 index_uri
             (set_clock 140%N
                (edit index_uri index_doc (lit "<p>two</p>") live_world))))
       (TimerFire 0)
  = None.
Proof.
  eapply (timer_fires_once posix_extname ascii_toLowerCase
            (set_clock 140%N
               (edit index_uri index_doc (lit "<p>two</p>") live_world))
            _ _ 0 [DidChange index_uri (lit "<p>three</p>")]).
  - exists (go_live ++ [DidChange index_uri (lit "<p>two</p>"); Tick 140%N]).
    eexists. vm_compute. reflexivity.
  - vm_compute. reflexivity.
  - vm_compute. reflexivity.
Defined.

Lemma deactivate_cancels_all_witness :
  debounceTimers (deactivate (edit notes_uri notes_doc (lit "done") live_world)).1
  = ∅ ∧
  timeouts (deactivate (edit notes_uri notes_doc (lit "done") live_world)).1
  = ∅ ∧
  ∀ id,
    step posix_extname ascii_toLowerCase
         (deactivate (edit notes_uri notes_doc (lit "done") live_world)).1
         (TimerFire id)
    = None.
Proof.
  apply (deactivate_cancels_all posix_extname ascii_toLowerCase
           (edit notes_uri notes_doc (lit "done") live_world)).
  exists (go_live ++ [DidChange notes_uri (lit "done")]). eexists.
  vm_compute. reflexivity.
Defined.

Lemma reachable_session_ok_witness : session_ok live_world.
Proof.
  apply (reachable_session_ok posix_extname ascii_toLowerCase live_world).
  exists go_live. eexists. vm_compute. reflexivity.
Defined.

Lemma state_transitions_witness :
  serverState live_world = running_editing ∧
  ∃ folder, CmdToggle None = CmdToggle folder.
Proof.
  apply (state_transitions posix_extname ascii_toLowerCase
           live_world paused_world (CmdToggle None) []).
  - vm_compute. reflexivity.
  - vm_compute. discriminate.
Defined.

Lemma start_twice_before_port_witness :
  ∃ w',
    run posix_extname ascii_toLowerCase initial
        [CmdOpenFile (Some (lit "/site")); CmdOpenFile None;
         PortFound 9090%N; PortFound 9091%N; CmdStop]
    = Some (w', [ProbePort 9090%N; ProbePort 9090%N;
                 CreateListener 9090%N; CreateHub; StartReturned (Some 9090%N);
                 CreateListener 9091%N; CreateHub; StartReturned (Some 9091%N);
                 CloseHub; CloseListener]) ∧
    httpServer w' = None ∧ listening w' = 2.
Proof.
  apply (start_twice_before_port posix_extname ascii_toLowerCase initial
           (Some (lit "/site")) None 47%N (lit "site") 9090%N 9091%N);
    reflexivity.
Defined.

Lemma response_status_and_cache_witness :
  (404 = 200 ∨ 404 = 404 ∨ 404 = 500) ∧
  (404 = 200 ↔ NO_STORE ∈ [(lit "Content-Type", lit "text/plain")]).
Proof.
  apply (response_status_and_cache posix_extname ascii_toLowerCase plain_join
           sample_script (lit "/site") 9090%N sample_disk
           (Some (lit "/missing.html"))
           {| status := 404;
              headers := [(lit "Content-Type", lit "text/plain")];
              body := Text (lit "404 - Not found") |}).
  vm_compute. reflexivity.
Defined.

Lemma html_response_has_bootstrap_witness :
  ∃ b,
    handleRequest posix_extname ascii_toLowerCase plain_join sample_script
                  (lit "/site") 9090%N sample_disk (Some (lit "/"))
    = Responded {| status := 200;
                   headers := [(lit "Content-Type", lit "text/html; charset=utf-8");
                               NO_STORE];
                   body := Text b |} ∧
    includes BOOTSTRAP b = true.
Proof.
  destruct (html_response_has_bootstrap posix_extname ascii_toLowerCase
              plain_join sample_script (lit "/site") 9090%N sample_disk
              (Some (lit "/")) (lit "<html><head></head></html>"))
    as (b & Hb & Hin & _).
  - vm_compute. discriminate.
  - vm_compute. reflexivity.
  - vm_compute. reflexivity.
  - exists b. split; [exact Hb | exact Hin].
Defined.

Lemma read_failure_witness :
  handleRequest posix_extname ascii_toLowerCase plain_join sample_script
                (lit "/site") 9090%N sample_disk (Some (lit "/locked.css"))
  = Threw ∧
  handleRequest posix_extname ascii_toLowerCase plain_join sample_script
                (lit "/site") 9090%N sample_disk (Some (lit "/locked.html"))
  = Responded {| status := 500; headers := [];
                 body := Text (lit "Server error") |}.
Proof.
  split.
  - rewrite (read_failure posix_extname ascii_toLowerCase plain_join
               sample_script (lit "/site") 9090%N sample_disk
               (Some (lit "/locked.css"))).
    + vm_compute. reflexivity.
    + vm_compute. discriminate.
    + vm_compute. reflexivity.
  - rewrite (read_failure posix_extname ascii_toLowerCase plain_join
               sample_script (lit "/site") 9090%N sample_disk
               (Some (lit "/locked.html"))).
    + vm_compute. reflexivity.
    + vm_compute. discriminate.
    + vm_compute. reflexivity.
Defined.

Lemma broadcast_reaches_page_witness :
  ∃ payload recipients,
    broadcastIfAllowed posix_extname ascii_toLowerCase live_world
      {| fileName := lit "/site/old.HTM"; getText := lit "<p>old</p>" |}
    = [Broadcast payload recipients] ∧
    onMessage ascii_toLowerCase (received payload) = NoAction.
Proof.
  destruct (broadcast_reaches_page posix_extname ascii_toLowerCase live_world
              {| fileName := lit "/site/old.HTM"; getText := lit "<p>old</p>" |})
    as (payload & recipients & Hsend & _ & _ & Hhtm).
  - vm_compute. reflexivity.
  - exists payload, recipients. split; [exact Hsend|].
    apply Hhtm. vm_compute. reflexivity.
Defined.

